(** * ORCA Input Builder: the document assembler

    A shallow embedding of the text-producing core of
    [ORCA-Input-Builder.py]: [JOB_KEYWORDS], [build_keywords],
    [format_coords] and [build_input], together with the Python string
    operations they call.

    Python strings are modelled as [string]; an [ascii] stands for the
    code point of the same number (0 to 255), and the character classes
    below are Python's, restricted to that range.  The Tk variables that
    the methods read through [self] are the fields of the record [App].
    Operations that can raise in Python return in the monad [exc]. *)

From Stdlib Require Import Bool List Arith Lia Ascii String.
Import ListNotations.

Open Scope list_scope.
Open Scope nat_scope.
Open Scope string_scope.

(** ** Exceptions *)

Module Py.

Inductive error : Type :=
| IndexError.

Inductive exc (A : Type) : Type :=
| Ok (a : A)
| Raise (e : error).

Arguments Ok {A} a.
Arguments Raise {A} e.

Definition ret {A} (a : A) : exc A := Ok a.

Definition bind {A B} (m : exc A) (k : A -> exc B) : exc B :=
  match m with
  | Ok a => k a
  | Raise e => Raise e
  end.

Declare Scope exc_scope.
Delimit Scope exc_scope with exc.
Notation "x <- m ;; k" := (bind m (fun x => k))
  (at level 61, m at next level, right associativity) : exc_scope.

(** ** Characters *)

Definition code (c : ascii) : nat := nat_of_ascii c.

(** [str.isspace] on one character: TAB, LF, VT, FF, CR, FS, GS, RS, US,
    SPACE, NEL and NBSP. *)
Definition isspace_char (c : ascii) : bool :=
  let n := code c in
  (((9 <=? n) && (n <=? 13)) || ((28 <=? n) && (n <=? 32))
   || (n =? 133) || (n =? 160))%nat.

(** The line boundaries of [str.splitlines]: LF, VT, FF, CR, FS, GS, RS
    and NEL (CR LF counts as one boundary). *)
Definition islinebreak_char (c : ascii) : bool :=
  let n := code c in
  (((10 <=? n) && (n <=? 13)) || ((28 <=? n) && (n <=? 30)) || (n =? 133))%nat.

(** The ten decimal digits. *)
Definition isdecimal_char (c : ascii) : bool :=
  let n := code c in ((48 <=? n) && (n <=? 57))%nat.

(** [str.isdigit] on one character: the decimal digits and the
    superscript digits two, three and one. *)
Definition isdigit_char (c : ascii) : bool :=
  let n := code c in
  isdecimal_char c || ((n =? 178) || (n =? 179) || (n =? 185))%nat.

(** ** Strings *)

Definition LF : ascii := "010"%char.
Definition CR : ascii := "013"%char.

(** The one-character strings used by the program's literals. *)
Definition nl : string := String LF "".
Definition dquote : string := String "034"%char "".

(** Truth value of a string: non-empty. *)
Definition truth (s : string) : bool :=
  match s with
  | "" => false
  | String _ _ => true
  end.

Fixpoint lstrip (s : string) : string :=
  match s with
  | "" => ""
  | String c s' => if isspace_char c then lstrip s' else s
  end.

Fixpoint rstrip (s : string) : string :=
  match s with
  | "" => ""
  | String c s' =>
      match rstrip s' with
      | "" => if isspace_char c then "" else String c ""
      | r => String c r
      end
  end.

(** [s.strip()] *)
Definition strip (s : string) : string := rstrip (lstrip s).

Fixpoint all_chars (p : ascii -> bool) (s : string) : bool :=
  match s with
  | "" => true
  | String c s' => p c && all_chars p s'
  end.

(** [s.isdigit()]: at least one character, all of them digits. *)
Definition isdigit (s : string) : bool := truth s && all_chars isdigit_char s.

(** [s.isdecimal()], the reading of the words "decimal digits". *)
Definition isdecimal (s : string) : bool :=
  truth s && all_chars isdecimal_char s.

(** [s.splitlines()]: the lines of [s] without their terminators; a
    terminator at the very end opens no further line. *)
Fixpoint splitlines (s : string) : list string :=
  match s with
  | "" => []
  | String c s' =>
      if islinebreak_char c then
        "" :: match s' with
              | String c' s'' =>
                  if ((code c =? 13) && (code c' =? 10))%nat
                  then splitlines s'' else splitlines s'
              | "" => []
              end
      else
        match splitlines s' with
        | [] => [String c ""]
        | l :: ls => String c l :: ls
        end
  end.

(** [sep.join(parts)] *)
Fixpoint join (sep : string) (parts : list string) : string :=
  match parts with
  | [] => ""
  | [p] => p
  | p :: ps => p ++ sep ++ join sep ps
  end.

Fixpoint startswith (p s : string) : bool :=
  match p, s with
  | "", _ => true
  | String a p', String b s' => Ascii.eqb a b && startswith p' s'
  | String _ _, "" => false
  end.

(** [sub in s] *)
Fixpoint contains (sub s : string) : bool :=
  startswith sub s ||
  match s with
  | "" => false
  | String _ s' => contains sub s'
  end.

(** [xs[i]], raising [IndexError] out of range (non-negative [i]). *)
Definition index {A} (xs : list A) (i : nat) : exc A :=
  match nth_error xs i with
  | Some x => Ok x
  | None => Raise IndexError
  end.

(** [xs[i:]] *)
Definition slice_from {A} (i : nat) (xs : list A) : list A := skipn i xs.

(** [d.get(key, default)] on a dict given by its items. *)
Fixpoint dict_get (d : list (string * string)) (key default : string) : string :=
  match d with
  | [] => default
  | (k, v) :: d' => if String.eqb k key then v else dict_get d' key default
  end.

End Py.

Import Py.

(** ** The program *)

(** Line 21: the job-type table, in the order of the dict literal. *)
Definition JOB_KEYWORDS : list (string * string) :=
  [ ("Single Point (SP)", "SP");
    ("Geometry Optimization (OPT)", "Opt");
    ("Vibrational Frequency (FREQ)", "Freq");
    ("OPT + FREQ", "Opt Freq");
    ("Excited States (TD-DFT)", "TDDFT");
    ("Scan", "Opt Scan");
    ("Transition State (TS)", "OptTS");
    ("Solvation", "Opt CPCM");
    ("Molecular Mechanics (MM)", "MM");
    ("QM/MM", "QMMM") ].

(** The variables of [ORCAInputBuilder.__init__] that the assembler
    reads.  A [StringVar] holds a string, the [IntVar] of a check button
    a truth value; [coords_text] and [cb_text] hold what
    [get('1.0', tk.END)] returns for the two text widgets. *)
Record App : Type := mkApp {
  job_type : string;
  method : string;
  basis : string;
  charge : string;
  mult : string;
  custom_keywords : string;
  solvent : string;
  tightscf : bool;
  d3bj : bool;
  rij : bool;
  grid5 : bool;
  cpcm : bool;
  verytightscf : bool;
  slowconv : bool;
  defgrid3 : bool;
  defgridx : bool;
  maxcore : string;
  nprocs : string;
  auto_format_coords : bool;
  coords_text : string;
  cb_text : string
}.

(** Lines 217-221: the check buttons with their labels. *)
Definition extras_vars (self : App) : list (bool * string) :=
  [ (tightscf self, "TightSCF"); (d3bj self, "D3BJ"); (rij self, "RIJCOSX");
    (grid5 self, "Grid5"); (cpcm self, "CPCM");
    (verytightscf self, "VeryTightSCF"); (slowconv self, "SlowConv");
    (defgrid3 self, "DefGrid3"); (defgridx self, "DefGridX") ].

(** Lines 222-224: the loop appending the labels of the set variables. *)
Fixpoint append_extras (parts : list string) (vars : list (bool * string))
  : list string :=
  match vars with
  | [] => parts
  | (var, label) :: vars' =>
      append_extras (if var then parts ++ [label] else parts)%list vars'
  end.

(** Lines 215-227. *)
Definition build_keywords (self : App) : string :=
  let parts := [dict_get JOB_KEYWORDS (job_type self) ""] in
  let parts := append_extras parts (extras_vars self) in
  let parts :=
    if truth (strip (custom_keywords self))
    then (parts ++ [strip (custom_keywords self)])%list
    else parts in
  strip (join " " (filter truth parts)).

(** Lines 229-238. *)
Definition format_coords (text : string) : exc string :=
  let text := strip text in
  if negb (truth text) then ret ""
  else
    let lines := splitlines text in
    (cond <- (if (1 <? List.length lines)%nat
              then (l0 <- index lines 0 ;; ret (isdigit (strip l0)))
              else ret false) ;;
     ret (if cond : bool
          then strip (join nl (slice_from 2 lines))
          else text))%exc.

(** Lines 240-263. *)
Definition build_input (self : App) : exc string :=
  let header := "! " ++ strip (method self) ++ " " ++ strip (basis self) in
  let extra_kw := build_keywords self in
  let header := if truth extra_kw then header ++ " " ++ extra_kw else header in
  let header := header ++ nl ++ nl in
  let res_block :=
    "%maxcore " ++ maxcore self ++ nl
    ++ "%pal nprocs " ++ nprocs self ++ " end" ++ nl ++ nl in
  let cpcm_block :=
    if contains "CPCM" extra_kw || String.eqb (job_type self) "Solvation"
       || cpcm self
    then
      let sol := solvent self in
      "%cpcm" ++ nl ++ "  smd true" ++ nl
      ++ "  SMDsolvent " ++ dquote ++ sol ++ dquote ++ nl ++ "end" ++ nl ++ nl
    else "" in
  (coords <- (if auto_format_coords self
              then format_coords (coords_text self)
              else ret (strip (coords_text self))) ;;
   let xyz_block :=
     if truth coords
     then "* xyz " ++ charge self ++ " " ++ mult self ++ nl
          ++ coords ++ nl ++ "*" ++ nl
     else "" in
   let custom_block_text := strip (cb_text self) in
   let custom_block_text :=
     if truth custom_block_text then custom_block_text ++ nl ++ nl
     else custom_block_text in
   ret (header ++ res_block ++ cpcm_block ++ custom_block_text ++ xyz_block))%exc.

(** ** Vocabulary of the properties *)

(** A string is blank when all its characters are whitespace. *)
Definition blank (s : string) : bool := all_chars isspace_char s.

(** A line holds no line boundary. *)
Definition isline (s : string) : bool :=
  all_chars (fun c => negb (islinebreak_char c)) s.

(** The only line boundary a text holds is LF. *)
Definition lf_only (s : string) : bool :=
  all_chars (fun c => negb (islinebreak_char c) || Ascii.eqb c LF) s.

(** A token has no whitespace at either end. *)
Definition trimmed (s : string) : Prop := lstrip s = s /\ rstrip s = s.

(** The tokens of the keyword string: the job keyword, the labels of
    the set check buttons in the order of [extras_vars], the trimmed
    custom keywords; empty ones are left out. *)
Definition keyword_tokens (self : App) : list string :=
  filter truth
    (dict_get JOB_KEYWORDS (job_type self) ""
     :: map snd (filter fst (extras_vars self))
     ++ (if truth (strip (custom_keywords self))
         then [strip (custom_keywords self)] else []))%list.

(** The header line as the program writes it: method and basis first. *)
Definition header_line (self : App) : string :=
  "! " ++ strip (method self) ++ " " ++ strip (basis self)
  ++ match keyword_tokens self with
     | [] => ""
     | toks => " " ++ join " " toks
     end.

(** The header line in the order the specification gives: job keywords
    first, then method and basis, then the flags and custom keywords. *)
Definition header_line_job_first (self : App) : string :=
  "! " ++ strip (join " " (filter truth
    (dict_get JOB_KEYWORDS (job_type self) ""
     :: strip (method self) :: strip (basis self)
     :: map snd (filter fst (extras_vars self))
     ++ [strip (custom_keywords self)])%list)).

Definition resource_directive (self : App) : string :=
  "%maxcore " ++ maxcore self ++ nl
  ++ "%pal nprocs " ++ nprocs self ++ " end" ++ nl.

Definition solvent_directive (sol : string) : string :=
  "%cpcm" ++ nl ++ "  smd true" ++ nl
  ++ "  SMDsolvent " ++ dquote ++ sol ++ dquote ++ nl ++ "end" ++ nl.

Definition coordinate_directive (self : App) (coords : string) : string :=
  "* xyz " ++ charge self ++ " " ++ mult self ++ nl
  ++ coords ++ nl ++ "*" ++ nl.

(** The coordinate text that goes into the document. *)
Definition coords_used (self : App) : exc string :=
  if auto_format_coords self
  then format_coords (coords_text self)
  else ret (strip (coords_text self)).

(** The part of a document before the solvent directive, and the parts
    after it. *)
Definition preamble (self : App) : string :=
  header_line self ++ nl ++ nl ++ resource_directive self ++ nl.

Definition custom_segment (self : App) : string :=
  if truth (strip (cb_text self)) then strip (cb_text self) ++ nl ++ nl
  else "".

Definition coordinate_segment (self : App) (coords : string) : string :=
  if truth coords then coordinate_directive self coords else "".

(** A document: the segments in their order, with or without the
    solvent directive. *)
Definition document (self : App) (with_solvent : bool) (coords : string)
  : string :=
  preamble self
  ++ (if with_solvent then solvent_directive (solvent self) ++ nl else "")
  ++ custom_segment self
  ++ coordinate_segment self coords.

(** The three conditions under which the solvent directive is asked for. *)
Definition solvent_requested (self : App) : Prop :=
  cpcm self = true
  \/ contains "CPCM" (build_keywords self) = true
  \/ job_type self = "Solvation".

(** A string without the character [*]. *)
Definition starless (s : string) : bool :=
  all_chars (fun c => negb (Ascii.eqb c "*"%char)) s.

(** Inputs used below. *)
Definition default_app : App :=
  mkApp "Single Point (SP)" "B3LYP" "def2-SVP" "0" "1" "" "Water"
        true false false false false false false false false
        "2000" "4" true "" "".

Definition water_atoms : list string :=
  ["O 0.000 0.000 0.000"; "H 0.757 0.586 0.000"; "H -0.757 0.586 0.000"].

Definition water_xyz : string := join nl ("3" :: "water" :: water_atoms).

Definition cpcm_water_app : App :=
  mkApp "Single Point (SP)" "B3LYP" "def2-SVP" "0" "1" "" "Water"
        true false false false true false false false false
        "2000" "4" true "" "".

Definition nocpcm_app : App :=
  mkApp "Single Point (SP)" "B3LYP" "def2-SVP" "0" "1" "NoCPCM" "Water"
        true false false false false false false false false
        "2000" "4" true "" "".

Definition custom_only_app : App :=
  mkApp "Single Point (SP)" "B3LYP" "def2-SVP" "0" "1" "" "Water"
        true false false false false false false false false
        "2000" "4" true "" ("%scf MaxIter 200 end" ++ nl).

Definition raw_xyz_app : App :=
  mkApp "Single Point (SP)" "B3LYP" "def2-SVP" "0" "1" "" "Water"
        true false false false false false false false false
        "2000" "4" false water_xyz "".

Definition odd_app : App :=
  mkApp "Benchmark" "B3LYP" "def2-SVP" "zero" "1" "" "Ale"
        false false false false false false false false false
        "2000" "4" true water_xyz "".

Definition bare_app : App :=
  mkApp "OPT + FREQ" " PBE0 " "def2-TZVP" "0" "1" "  " "Water"
        false false false false false false false false false
        "2000" "4" true "" "".

(** ** The variables set one at a time *)

(** [self.charge.set(v)], [self.mult.set(v)], [self.solvent.set(v)],
    [self.auto_format_coords.set(v)], and the text of the coordinate
    widget replaced. *)
Definition set_charge (v : string) (self : App) : App :=
  mkApp (job_type self) (method self) (basis self) v (mult self)
        (custom_keywords self) (solvent self) (tightscf self) (d3bj self)
        (rij self) (grid5 self) (cpcm self) (verytightscf self)
        (slowconv self) (defgrid3 self) (defgridx self) (maxcore self)
        (nprocs self) (auto_format_coords self) (coords_text self)
        (cb_text self).

Definition set_mult (v : string) (self : App) : App :=
  mkApp (job_type self) (method self) (basis self) (charge self) v
        (custom_keywords self) (solvent self) (tightscf self) (d3bj self)
        (rij self) (grid5 self) (cpcm self) (verytightscf self)
        (slowconv self) (defgrid3 self) (defgridx self) (maxcore self)
        (nprocs self) (auto_format_coords self) (coords_text self)
        (cb_text self).

Definition set_solvent (v : string) (self : App) : App :=
  mkApp (job_type self) (method self) (basis self) (charge self) (mult self)
        (custom_keywords self) v (tightscf self) (d3bj self)
        (rij self) (grid5 self) (cpcm self) (verytightscf self)
        (slowconv self) (defgrid3 self) (defgridx self) (maxcore self)
        (nprocs self) (auto_format_coords self) (coords_text self)
        (cb_text self).

Definition set_auto_format_coords (v : bool) (self : App) : App :=
  mkApp (job_type self) (method self) (basis self) (charge self) (mult self)
        (custom_keywords self) (solvent self) (tightscf self) (d3bj self)
        (rij self) (grid5 self) (cpcm self) (verytightscf self)
        (slowconv self) (defgrid3 self) (defgridx self) (maxcore self)
        (nprocs self) v (coords_text self) (cb_text self).

Definition set_coords_text (v : string) (self : App) : App :=
  mkApp (job_type self) (method self) (basis self) (charge self) (mult self)
        (custom_keywords self) (solvent self) (tightscf self) (d3bj self)
        (rij self) (grid5 self) (cpcm self) (verytightscf self)
        (slowconv self) (defgrid3 self) (defgridx self) (maxcore self)
        (nprocs self) (auto_format_coords self) v (cb_text self).

(** ** The window and its callbacks *)

Module Tk.

(** What [get('1.0', tk.END)] returns for a text widget that was emptied
    with [delete('1.0', tk.END)] and filled with [insert(tk.END, s)]: the
    widget keeps a final newline of its own after the inserted text. *)
Definition text_of (s : string) : string := s ++ nl.

End Tk.

(** What a callback does to the world outside the window, in the order
    it does it: message boxes, file writes and clipboard operations.
    The file dialogs are not recorded; their answers are arguments of the
    callbacks, and so is the text read from a chosen file. *)
Inductive effect : Type :=
| AskYesNo (title message : string)
| ShowInfo (title message : string)
| WriteFile (path content : string)
| ClipboardClear
| ClipboardAppend (s : string).

(** The window: the variables, the preview widget (by what
    [get('1.0', tk.END)] returns), the lock and the file name entry. *)
Record Window : Type := mkWindow {
  vars : App;
  preview_text : string;
  preview_locked : bool;
  out_name : string
}.


(** Lines 198-200. *)
Definition copy_preview (self : Window) : list effect :=
  [ClipboardClear; ClipboardAppend (preview_text self)].

(** Lines 265-268. *)
Definition update_preview (self : Window) : exc Window :=
  (content <- build_input (vars self) ;;
   ret (mkWindow (vars self) (Tk.text_of content) (preview_locked self)
                 (out_name self)))%exc.

(** Lines 270-272. *)
Definition update_preview_if_locked (self : Window) : exc Window :=
  if preview_locked self then update_preview self else ret self.

(** Lines 202-209; [file_path] is the answer of the open dialog and
    [file_text] what [f.read()] returns for the file chosen. *)
Definition load_coords (file_path file_text : string) (self : Window)
  : exc Window :=
  if negb (truth file_path) then ret self
  else
    update_preview_if_locked
      (mkWindow (set_coords_text (Tk.text_of file_text) (vars self))
                (preview_text self) (preview_locked self) (out_name self)).

(** Lines 211-213. *)
Definition clear_coords (self : Window) : exc Window :=
  update_preview_if_locked
    (mkWindow (set_coords_text (Tk.text_of "") (vars self))
              (preview_text self) (preview_locked self) (out_name self)).

(** Lines 274-283; [yes] is the answer to the question, should it be
    asked, and [file_path] the answer of the save dialog. *)
Definition save_input (yes : bool) (file_path : string) (self : Window)
  : exc (list effect) :=
  (content <- (if negb (preview_locked self)
               then ret (preview_text self)
               else build_input (vars self)) ;;
   let asked :=
     if negb (truth (strip content))
     then [AskYesNo "Empty Input" "Preview is empty. Save anyway?"]
     else [] in
   if negb (truth (strip content)) && negb yes then ret asked
   else
     ret (asked ++
          (if truth file_path
           then [WriteFile file_path content;
                 ShowInfo "Saved" ("Input saved to: " ++ file_path)]
           else []))%list)%exc.



(** Lines 39-74: the variables at their first values, the two input
    widgets empty, the preview filled by [update_preview]. *)
Definition init : exc Window :=
  update_preview
    (mkWindow
       (mkApp "Single Point (SP)" "B3LYP" "def2-SVP" "0" "1" "" "Water"
              true false false false false false false false false
              "2000" "4" true (Tk.text_of "") (Tk.text_of ""))
       (Tk.text_of "") true "orca_input.inp").

(** Further inputs used below. *)
Definition padded_app : App :=
  mkApp "Scan" "  PBE0" ("def2-TZVP" ++ nl) "0" "1" " NoSym  " "Water"
        false true false false false false false false false
        "2000" "4" true (nl ++ water_xyz ++ nl ++ nl) ("  %scf end " ++ nl).

Definition trim_app : App :=
  mkApp "Scan" "PBE0" "def2-TZVP" "0" "1" "NoSym" "Water"
        false true false false false false false false false
        "2000" "4" true water_xyz "%scf end".

Definition empty_keywords_app : App :=
  mkApp "Benchmark" "HF" "cc-pVDZ" "0" "1" "  " "Water"
        false false false false false false false false false
        "2000" "4" true "" "".

Definition fresh_window : Window :=
  mkWindow default_app
           (Tk.text_of ("! B3LYP def2-SVP SP TightSCF" ++ nl ++ nl
                        ++ "%maxcore 2000" ++ nl ++ "%pal nprocs 4 end"
                        ++ nl ++ nl))
           true "orca_input.inp".

Definition edited_window : Window :=
  mkWindow default_app ("! HF STO-3G" ++ nl) false "orca_input.inp".

(** A coordinate file with CR LF line terminators. *)
Definition crlf : string := String CR nl.

Definition crlf_xyz : string :=
  join crlf ["2"; "hydrogen"; "H 0.0 0.0 0.0"; "H 0.0 0.0 0.74"].

(** * Facts about the string operations *)

Section StringFacts.

Lemma append_assoc (a b c : string) : (a ++ b) ++ c = a ++ b ++ c.
Proof. induction a as [|x a IH]; simpl; [reflexivity | now rewrite IH]. Qed.

Lemma append_empty_r (a : string) : a ++ "" = a.
Proof. induction a as [|x a IH]; simpl; [reflexivity | now rewrite IH]. Qed.

Lemma append_length (a b : string) :
  String.length (a ++ b) = String.length a + String.length b.
Proof. induction a as [|x a IH]; simpl; [reflexivity | now rewrite IH]. Qed.

Lemma append_inv_head (a b c : string) : a ++ b = a ++ c -> b = c.
Proof.
  induction a as [|x a IH]; simpl; intros H; [exact H | ].
  injection H as H. auto.
Qed.

Lemma truth_true (s : string) : truth s = true <-> s <> "".
Proof. destruct s; simpl; split; congruence. Qed.

Lemma truth_false (s : string) : truth s = false <-> s = "".
Proof. destruct s; simpl; split; congruence. Qed.

(** Character classes. *)

Lemma linebreak_isspace (c : ascii) :
  islinebreak_char c = true -> isspace_char c = true.
Proof.
  destruct c as [[] [] [] [] [] [] [] []]; vm_compute; congruence.
Qed.

Lemma digit_not_space (c : ascii) :
  isdigit_char c = true -> isspace_char c = false.
Proof.
  destruct c as [[] [] [] [] [] [] [] []]; vm_compute; congruence.
Qed.

Lemma decimal_isdigit_char (c : ascii) :
  isdecimal_char c = true -> isdigit_char c = true.
Proof. unfold isdigit_char. intros ->. reflexivity. Qed.

Lemma all_chars_app p (a b : string) :
  all_chars p (a ++ b) = all_chars p a && all_chars p b.
Proof.
  induction a as [|x a IH]; simpl; [reflexivity | ].
  now rewrite IH, andb_assoc.
Qed.

Lemma all_chars_impl (p q : ascii -> bool) (s : string) :
  (forall c, p c = true -> q c = true) ->
  all_chars p s = true -> all_chars q s = true.
Proof.
  intros Hpq. induction s as [|x s IH]; simpl; [reflexivity | ].
  rewrite !andb_true_iff. intros [Hx Hs]. auto.
Qed.

Lemma blank_app (a b : string) : blank (a ++ b) = blank a && blank b.
Proof. apply all_chars_app. Qed.

Lemma blank_cons (x : ascii) (s : string) :
  blank (String x s) = isspace_char x && blank s.
Proof. reflexivity. Qed.

Lemma lstrip_blank (s : string) : blank s = true -> lstrip s = "".
Proof.
  induction s as [|x s IH]; [reflexivity | ].
  rewrite blank_cons, andb_true_iff. simpl. intros [-> Hs]. auto.
Qed.

Lemma rstrip_empty_iff (s : string) : rstrip s = "" <-> blank s = true.
Proof.
  induction s as [|x s IH]; [simpl; tauto | ].
  rewrite blank_cons. simpl.
  destruct (rstrip s) eqn:Hr.
  - destruct (isspace_char x); simpl.
    + tauto.
    + split; discriminate.
  - split; [discriminate | ].
    rewrite andb_true_iff. intros [_ Hs].
    apply IH in Hs. discriminate.
Qed.

Lemma rstrip_blank (s : string) : blank s = true -> rstrip s = "".
Proof. apply rstrip_empty_iff. Qed.

Lemma rstrip_cons (x : ascii) (s : string) :
  rstrip (String x s) =
  if blank (String x s) then "" else String x (rstrip s).
Proof.
  rewrite blank_cons. simpl. destruct (rstrip s) eqn:Hr.
  - assert (Hb : blank s = true) by now apply rstrip_empty_iff.
    rewrite Hb, andb_true_r. reflexivity.
  - assert (Hb : blank s = false).
    { destruct (blank s) eqn:Hb; [ | reflexivity].
      apply rstrip_empty_iff in Hb. congruence. }
    rewrite Hb, andb_false_r. reflexivity.
Qed.

Lemma lstrip_app (a b : string) :
  lstrip (a ++ b) = if blank a then lstrip b else lstrip a ++ b.
Proof.
  induction a as [|x a IH]; [reflexivity | ].
  rewrite blank_cons. simpl.
  destruct (isspace_char x); simpl; [exact IH | reflexivity].
Qed.

Lemma rstrip_app (a b : string) :
  rstrip (a ++ b) = if blank b then rstrip a else a ++ rstrip b.
Proof.
  induction a as [|x a IH].
  - simpl. destruct (blank b) eqn:Hb; [now apply rstrip_blank | reflexivity].
  - change (String x a ++ b) with (String x (a ++ b)).
    rewrite !rstrip_cons, IH, !blank_cons, blank_app.
    destruct (blank b); simpl.
    + rewrite andb_true_r. reflexivity.
    + rewrite !andb_false_r. reflexivity.
Qed.

Lemma lstrip_idem (s : string) : lstrip (lstrip s) = lstrip s.
Proof.
  induction s as [|x s IH]; simpl; [reflexivity | ].
  destruct (isspace_char x) eqn:Hx; [exact IH | ].
  simpl. now rewrite Hx.
Qed.

Lemma rstrip_idem (s : string) : rstrip (rstrip s) = rstrip s.
Proof.
  induction s as [|x s IH]; [reflexivity | ].
  rewrite rstrip_cons.
  destruct (blank (String x s)) eqn:Hb; [reflexivity | ].
  rewrite rstrip_cons, IH.
  replace (blank (String x (rstrip s))) with false; [reflexivity | ].
  symmetry. rewrite blank_cons in *.
  destruct (isspace_char x); simpl in *; [ | reflexivity].
  destruct (blank (rstrip s)) eqn:Hbr; [ | reflexivity].
  apply rstrip_empty_iff in Hbr. rewrite IH in Hbr.
  apply rstrip_empty_iff in Hbr. congruence.
Qed.

(** Trimming left then right is trimming right then left. *)
Lemma strip_comm (s : string) : rstrip (lstrip s) = lstrip (rstrip s).
Proof.
  induction s as [|x s IH]; [reflexivity | ].
  rewrite rstrip_cons, blank_cons. cbn [lstrip].
  destruct (isspace_char x) eqn:Hx; cbn [andb].
  - rewrite IH. destruct (blank s) eqn:Hb.
    + now rewrite (rstrip_blank _ Hb).
    + cbn [lstrip]. now rewrite Hx.
  - rewrite rstrip_cons, blank_cons, Hx. cbn [andb lstrip]. now rewrite Hx.
Qed.

Lemma strip_blank (s : string) : blank s = true -> strip s = "".
Proof. intros H. unfold strip. now rewrite (lstrip_blank _ H). Qed.

Lemma strip_empty_iff (s : string) : strip s = "" <-> blank s = true.
Proof.
  unfold strip. rewrite strip_comm. split.
  - intros H. apply rstrip_empty_iff.
    destruct (rstrip s) as [|x r] eqn:Hr; [reflexivity | ].
    assert (Hx : isspace_char x = false).
    { destruct (isspace_char x) eqn:Hx; [ | reflexivity].
      exfalso.
      assert (Hi := rstrip_idem s). rewrite Hr in Hi.
      rewrite rstrip_cons in Hi.
      destruct (blank (String x r)) eqn:Hb; [discriminate | ].
      injection Hi as Hi.
      simpl in H. rewrite Hx in H.
      assert (Hbr : blank r = true).
      { clear -H. induction r as [|y r IH]; [reflexivity | ].
        rewrite blank_cons. simpl in H.
        destruct (isspace_char y); [auto | discriminate]. }
      rewrite blank_cons, Hx, Hbr in Hb. discriminate. }
    simpl in H. rewrite Hx in H. discriminate.
  - intros H. now rewrite (rstrip_blank _ H).
Qed.

Lemma lstrip_strip (s : string) : lstrip (strip s) = strip s.
Proof. unfold strip. now rewrite strip_comm, lstrip_idem. Qed.

Lemma rstrip_strip (s : string) : rstrip (strip s) = strip s.
Proof. unfold strip. now rewrite rstrip_idem. Qed.

Lemma strip_idem (s : string) : strip (strip s) = strip s.
Proof. unfold strip at 1. now rewrite lstrip_strip, rstrip_strip. Qed.

(** Lines. *)

Lemma isline_lf_only (s : string) : isline s = true -> lf_only s = true.
Proof.
  apply all_chars_impl. intros c ->. reflexivity.
Qed.

Lemma splitlines_empty_iff (s : string) : splitlines s = [] <-> s = "".
Proof.
  destruct s as [|x s]; [simpl; tauto | ].
  split; [ | discriminate]. simpl.
  destruct (islinebreak_char x); [discriminate | ].
  destruct (splitlines s); discriminate.
Qed.

Lemma splitlines_lf (s : string) :
  splitlines (String LF s) = "" :: splitlines s.
Proof. destruct s; reflexivity. Qed.

(** A line followed by LF is the first line of the text. *)
Lemma splitlines_line (l rest : string) :
  isline l = true ->
  splitlines (l ++ nl ++ rest) = l :: splitlines rest.
Proof.
  induction l as [|x l IH]; intros Hl.
  - apply splitlines_lf.
  - unfold isline in Hl. simpl in Hl. apply andb_true_iff in Hl.
    destruct Hl as [Hx Hl]. apply negb_true_iff in Hx.
    change (String x l ++ nl ++ rest) with (String x (l ++ nl ++ rest)).
    cbn [splitlines]. rewrite Hx, (IH Hl). reflexivity.
Qed.

(** A non-empty line is the only line of itself. *)
Lemma splitlines_one (l : string) :
  isline l = true -> l <> "" -> splitlines l = [l].
Proof.
  induction l as [|x l IH]; intros Hl Hne; [congruence | ].
  unfold isline in Hl. simpl in Hl. apply andb_true_iff in Hl.
  destruct Hl as [Hx Hl]. apply negb_true_iff in Hx.
  cbn [splitlines]. rewrite Hx.
  destruct l as [|y l]; [reflexivity | ].
  rewrite IH; [reflexivity | exact Hl | discriminate].
Qed.

Lemma join_cons (sep p : string) (ps : list string) :
  ps <> [] -> join sep (p :: ps) = p ++ sep ++ join sep ps.
Proof. destruct ps; [congruence | reflexivity]. Qed.

Lemma join_splitlines_cons (x : ascii) (s : string) :
  islinebreak_char x = false ->
  join nl (splitlines (String x s)) = String x (join nl (splitlines s)).
Proof.
  intros Hx. cbn [splitlines]. rewrite Hx.
  destruct (splitlines s) as [|l ls]; [reflexivity | ].
  destruct ls; reflexivity.
Qed.

(** Splitting a text whose boundaries are all LF and joining the lines
    again with LF loses at most the final terminator. *)
Lemma rstrip_join_splitlines (t : string) :
  lf_only t = true -> rstrip (join nl (splitlines t)) = rstrip t.
Proof.
  induction t as [|x t IH]; intros Ht; [reflexivity | ].
  unfold lf_only in Ht. simpl in Ht. apply andb_true_iff in Ht.
  destruct Ht as [Hx Ht]. specialize (IH Ht).
  destruct (islinebreak_char x) eqn:Hb.
  - simpl in Hx. apply Ascii.eqb_eq in Hx. subst x.
    rewrite splitlines_lf.
    destruct (splitlines t) as [|l ls] eqn:Hs.
    + apply splitlines_empty_iff in Hs. subst t. reflexivity.
    + rewrite join_cons by discriminate.
      change ("" ++ nl ++ join nl (l :: ls)) with (String LF (join nl (l :: ls))).
      rewrite !rstrip_cons, !blank_cons, IH.
      assert (Hbl : blank (join nl (l :: ls)) = blank t).
      { destruct (blank t) eqn:E.
        - apply rstrip_empty_iff. rewrite IH. now apply rstrip_empty_iff.
        - destruct (blank (join nl (l :: ls))) eqn:E'; [ | reflexivity].
          apply rstrip_empty_iff in E'. rewrite IH in E'.
          apply rstrip_empty_iff in E'. congruence. }
      now rewrite Hbl.
  - rewrite (join_splitlines_cons _ _ Hb).
    rewrite !rstrip_cons, !blank_cons, IH.
    assert (Hbl : blank (join nl (splitlines t)) = blank t).
    { destruct (blank t) eqn:E.
      - apply rstrip_empty_iff. rewrite IH. now apply rstrip_empty_iff.
      - destruct (blank (join nl (splitlines t))) eqn:E'; [ | reflexivity].
        apply rstrip_empty_iff in E'. rewrite IH in E'.
        apply rstrip_empty_iff in E'. congruence. }
    now rewrite Hbl.
Qed.

Lemma lf_only_join (ls : list string) :
  Forall (fun l => isline l = true) ls -> lf_only (join nl ls) = true.
Proof.
  induction 1 as [|l ls Hl Hls IH]; [reflexivity | ].
  destruct ls as [|l' ls]; [now apply isline_lf_only | ].
  rewrite join_cons by discriminate.
  unfold lf_only in *. rewrite !all_chars_app, IH.
  fold (lf_only l). rewrite (isline_lf_only _ Hl). reflexivity.
Qed.

Lemma all_chars_lstrip p (s : string) :
  all_chars p s = true -> all_chars p (lstrip s) = true.
Proof.
  induction s as [|x s IH]; [reflexivity | ].
  cbn [lstrip]. destruct (isspace_char x); [ | tauto].
  simpl. rewrite andb_true_iff. intros [_ H]. auto.
Qed.

Lemma all_chars_rstrip p (s : string) :
  all_chars p s = true -> all_chars p (rstrip s) = true.
Proof.
  induction s as [|x s IH]; [reflexivity | ].
  rewrite rstrip_cons. destruct (blank (String x s)); [reflexivity | ].
  simpl. rewrite !andb_true_iff. intros [Hx H]. auto.
Qed.

Lemma digits_not_blank (d : string) : isdigit d = true -> blank d = false.
Proof.
  destruct d as [|x d]; [discriminate | ].
  unfold isdigit. simpl. rewrite blank_cons.
  intros H. apply andb_true_iff in H. destruct H as [Hx _].
  now rewrite (digit_not_space _ Hx).
Qed.

Lemma decimal_isdigit (d : string) : isdecimal d = true -> isdigit d = true.
Proof.
  unfold isdecimal, isdigit. rewrite !andb_true_iff. intros [Ht Hd].
  split; [exact Ht | ].
  revert Hd. apply all_chars_impl, decimal_isdigit_char.
Qed.

Lemma blank_join (ls : list string) :
  blank (join nl ls) = forallb blank ls.
Proof.
  induction ls as [|l ls IH]; [reflexivity | ].
  destruct ls as [|l' ls]; [simpl; now rewrite andb_true_r | ].
  rewrite join_cons by discriminate.
  rewrite !blank_app, IH. reflexivity.
Qed.

(** The lines after the first one of a trimmed comment-and-atoms text. *)
Lemma strip_tail_lines (m : string) (atoms : list string) :
  isline m = true ->
  Forall (fun a => isline a = true) atoms ->
  blank (join nl (m :: atoms)) = false ->
  strip (join nl (skipn 1 (splitlines (rstrip (join nl (m :: atoms))))))
  = strip (join nl atoms).
Proof.
  intros Hm Hatoms Hnb.
  destruct atoms as [|a atoms].
  - cbn [join] in *.
    rewrite splitlines_one; [reflexivity | now apply all_chars_rstrip | ].
    intros E. apply rstrip_empty_iff in E. congruence.
  - rewrite join_cons in * by discriminate.
    set (J := join nl (a :: atoms)) in *.
    rewrite !blank_app in Hnb. change (blank nl) with true in Hnb.
    cbn [andb] in Hnb.
    destruct (blank J) eqn:HJ.
    + rewrite andb_true_r in Hnb.
      rewrite rstrip_app, blank_app, HJ. cbn [blank nl all_chars andb].
      change (isspace_char LF) with true. cbn [andb].
      rewrite splitlines_one; [ | now apply all_chars_rstrip | ].
      * cbn [skipn join]. now rewrite (strip_blank _ HJ).
      * intros E. apply rstrip_empty_iff in E. congruence.
    + rewrite rstrip_app, blank_app, HJ, andb_false_r.
      rewrite rstrip_app, HJ.
      rewrite splitlines_line by exact Hm.
      cbn [skipn]. unfold strip. rewrite !strip_comm.
      rewrite rstrip_join_splitlines, rstrip_idem; [reflexivity | ].
      apply all_chars_rstrip. now apply lf_only_join.
Qed.

End StringFacts.

(** * The keyword string *)

Section Keywords.

Lemma trimmed_strip (s : string) : trimmed (strip s).
Proof. split; [apply lstrip_strip | apply rstrip_strip]. Qed.

Lemma lstrip_app_trimmed (a b : string) :
  a <> "" -> lstrip a = a -> lstrip (a ++ b) = a ++ b.
Proof.
  intros Hne Ha. rewrite lstrip_app.
  destruct (blank a) eqn:Hb; [ | now rewrite Ha].
  rewrite (lstrip_blank _ Hb) in Ha. congruence.
Qed.

Lemma rstrip_app_trimmed (a b : string) :
  b <> "" -> rstrip b = b -> rstrip (a ++ b) = a ++ b.
Proof.
  intros Hne Hb. rewrite rstrip_app.
  destruct (blank b) eqn:E; [ | now rewrite Hb].
  rewrite (rstrip_blank _ E) in Hb. congruence.
Qed.

Lemma append_nonempty_l (a b : string) : a <> "" -> a ++ b <> "".
Proof. destruct a; [congruence | discriminate]. Qed.

(** Joining non-empty trimmed tokens gives a trimmed string. *)
Lemma join_trimmed (sep : string) (ps : list string) :
  Forall (fun p => p <> "" /\ trimmed p) ps ->
  trimmed (join sep ps) /\ (ps <> [] -> join sep ps <> "").
Proof.
  induction 1 as [|p ps [Hne [Hl Hr]] Hps [[IHl IHr] IHne]].
  - split; [split; reflexivity | congruence].
  - destruct ps as [|q ps].
    + split; [split; assumption | intros _; exact Hne].
    + rewrite join_cons by discriminate.
      assert (Hj : join sep (q :: ps) <> "") by (apply IHne; discriminate).
      split; [split | intros _; now apply append_nonempty_l].
      * now apply lstrip_app_trimmed.
      * rewrite <- append_assoc.
        now apply rstrip_app_trimmed.
Qed.

Lemma strip_join_tokens (sep : string) (ps : list string) :
  Forall trimmed ps ->
  strip (join sep (filter truth ps)) = join sep (filter truth ps).
Proof.
  intros Hps.
  assert (H : Forall (fun p => p <> "" /\ trimmed p) (filter truth ps)).
  { apply Forall_forall. intros p Hin. apply filter_In in Hin.
    destruct Hin as [Hin Ht]. split; [now apply truth_true | ].
    rewrite Forall_forall in Hps. auto. }
  destruct (join_trimmed sep _ H) as [[Hl Hr] _].
  unfold strip. now rewrite Hl, Hr.
Qed.

(** The loop of [build_keywords] appends the labels of the set variables. *)
Lemma append_extras_eq (vars : list (bool * string)) (parts : list string) :
  append_extras parts vars = (parts ++ map snd (filter fst vars))%list.
Proof.
  revert parts. induction vars as [|[var label] vars IH]; intros parts.
  - simpl. now rewrite app_nil_r.
  - cbn [append_extras filter fst]. rewrite IH.
    destruct var; cbn [map snd]; [ | reflexivity].
    now rewrite <- app_assoc.
Qed.

Lemma Forall_map_filter {A B} (P : B -> Prop) (f : A -> B) (g : A -> bool)
      (xs : list A) :
  Forall P (map f xs) -> Forall P (map f (filter g xs)).
Proof.
  induction xs as [|x xs IH]; intros H; [constructor | ].
  inversion H; subst. cbn [filter].
  destruct (g x); [constructor | ]; auto.
Qed.

(** Every value of the job table, and the default, pass a test that the
    table's values and the empty string pass. *)
Lemma job_keyword_ind (P : string -> Prop) (key : string) :
  P "" ->
  Forall P (map snd JOB_KEYWORDS) ->
  P (dict_get JOB_KEYWORDS key "").
Proof.
  intros Hd. generalize JOB_KEYWORDS.
  induction l as [|[k v] l IH]; intros H; [exact Hd | ].
  inversion H; subst. cbn [dict_get].
  destruct (String.eqb k key); auto.
Qed.

Lemma job_keyword_trimmed (key : string) :
  trimmed (dict_get JOB_KEYWORDS key "").
Proof.
  apply job_keyword_ind; [split; reflexivity | ].
  repeat constructor.
Qed.

Lemma labels_trimmed (self : App) :
  Forall trimmed (map snd (filter fst (extras_vars self))).
Proof.
  apply Forall_map_filter. repeat constructor.
Qed.

(** [build_keywords] joins the tokens; its final trimming changes
    nothing. *)
Lemma build_keywords_tokens (self : App) :
  build_keywords self = join " " (keyword_tokens self).
Proof.
  unfold build_keywords, keyword_tokens. cbv zeta.
  rewrite append_extras_eq.
  set (labels := map snd (filter fst (extras_vars self))).
  set (jk := dict_get JOB_KEYWORDS (job_type self) "").
  assert (Hparts :
    (if truth (strip (custom_keywords self))
     then (([jk] ++ labels) ++ [strip (custom_keywords self)])%list
     else ([jk] ++ labels)%list)
    = (jk :: labels ++ (if truth (strip (custom_keywords self))
                        then [strip (custom_keywords self)] else []))%list).
  { destruct (truth _); cbn [app].
    - reflexivity.
    - now rewrite app_nil_r. }
  rewrite Hparts. apply strip_join_tokens.
  constructor; [apply job_keyword_trimmed | ].
  apply Forall_app. split; [apply labels_trimmed | ].
  destruct (truth _); repeat constructor; apply trimmed_strip.
Qed.

Lemma keyword_tokens_nonempty (self : App) :
  Forall (fun p => p <> "" /\ trimmed p) (keyword_tokens self).
Proof.
  unfold keyword_tokens. apply Forall_forall. intros p Hin.
  apply filter_In in Hin. destruct Hin as [Hin Ht].
  split; [now apply truth_true | ].
  destruct Hin as [<- | Hin]; [apply job_keyword_trimmed | ].
  apply in_app_or in Hin. destruct Hin as [Hin | Hin].
  - pose proof (labels_trimmed self) as H.
    rewrite Forall_forall in H. auto.
  - destruct (truth (strip (custom_keywords self))); [ | contradiction].
    destruct Hin as [<- | []]. apply trimmed_strip.
Qed.

Lemma truth_build_keywords (self : App) :
  truth (build_keywords self) =
  match keyword_tokens self with [] => false | _ => true end.
Proof.
  rewrite build_keywords_tokens.
  pose proof (join_trimmed " " _ (keyword_tokens_nonempty self)) as [_ Hne].
  destruct (keyword_tokens self) as [|t ts]; [reflexivity | ].
  apply truth_true, Hne. discriminate.
Qed.

End Keywords.

(** * Substrings *)

Section Substrings.

Lemma startswith_spec (x s : string) :
  startswith x s = true <-> exists q, s = x ++ q.
Proof.
  revert s. induction x as [|a x IH]; intros s.
  - simpl. split; [intros _; now exists s | reflexivity].
  - destruct s as [|b s]; simpl.
    + split; [discriminate | intros [q Hq]; discriminate].
    + rewrite andb_true_iff, Ascii.eqb_eq, IH. split.
      * intros [-> [q ->]]. now exists q.
      * intros [q Hq]. injection Hq as -> ->. split; [reflexivity | now exists q].
Qed.

(** [sub in s] holds exactly when [s] is some text, [sub], some text. *)
Lemma contains_spec (x s : string) :
  contains x s = true <-> exists p q, s = p ++ x ++ q.
Proof.
  split.
  - induction s as [|b s IH]; cbn [contains]; rewrite orb_true_iff.
    + intros [H | H]; [ | discriminate].
      apply startswith_spec in H. destruct H as [q Hq]. now exists "", q.
    + intros [H | H].
      * apply startswith_spec in H. destruct H as [q Hq]. now exists "", q.
      * destruct (IH H) as (p & q & ->). now exists (String b p), q.
  - intros (p & q & ->). induction p as [|b p IH].
    + simpl "++". destruct (x ++ q) eqn:E; cbn [contains];
        apply orb_true_iff; left; apply startswith_spec; exists q; auto.
    + change (String b p ++ x ++ q) with (String b (p ++ x ++ q)).
      cbn [contains]. rewrite IH. apply orb_true_r.
Qed.

Lemma contains_app_l (x a b : string) :
  contains x a = true -> contains x (a ++ b) = true.
Proof.
  rewrite !contains_spec. intros (p & q & ->).
  exists p, (q ++ b). now rewrite !append_assoc.
Qed.

Lemma contains_app_r (x a b : string) :
  contains x b = true -> contains x (a ++ b) = true.
Proof.
  rewrite !contains_spec. intros (p & q & ->).
  exists (a ++ p), q. now rewrite !append_assoc.
Qed.

(** Trimming keeps an occurrence of a non-empty trimmed word. *)
Lemma contains_strip (x s : string) :
  x <> "" -> trimmed x ->
  contains x s = true -> contains x (strip s) = true.
Proof.
  intros Hne [Hl Hr] H. apply contains_spec in H.
  destruct H as (p & q & ->).
  assert (Hbx : blank x = false).
  { destruct (blank x) eqn:E; [ | reflexivity].
    rewrite (lstrip_blank _ E) in Hl. congruence. }
  assert (Hxq : lstrip (x ++ q) = x ++ q) by now apply lstrip_app_trimmed.
  assert (Hbxq : blank (x ++ q) = false) by now rewrite blank_app, Hbx.
  unfold strip. rewrite lstrip_app.
  destruct (blank p).
  - rewrite Hxq, rstrip_app.
    destruct (blank q).
    + rewrite Hr. apply contains_spec. exists "", "". now rewrite append_empty_r.
    + apply contains_spec. now exists "", (rstrip q).
  - rewrite rstrip_app, Hbxq, rstrip_app.
    apply contains_app_r.
    destruct (blank q).
    + rewrite Hr. apply contains_spec. exists "", "". now rewrite append_empty_r.
    + apply contains_spec. now exists "", (rstrip q).
Qed.

Lemma contains_nonempty (x s : string) :
  x <> "" -> contains x s = true -> s <> "".
Proof.
  intros Hne H ->. destruct x; [congruence | discriminate].
Qed.

Lemma contains_join (x sep p : string) (ps : list string) :
  In p ps -> contains x p = true -> contains x (join sep ps) = true.
Proof.
  intros Hin Hp. induction ps as [|q ps IH]; [contradiction | ].
  destruct ps as [|q' ps].
  - destruct Hin as [-> | []]. exact Hp.
  - rewrite join_cons by discriminate.
    destruct Hin as [-> | Hin].
    + now apply contains_app_l.
    + apply contains_app_r, contains_app_r. auto.
Qed.

(** A token that holds the word puts it into the keyword string. *)
Lemma contains_build_keywords (x p : string) (self : App) :
  x <> "" ->
  In p (dict_get JOB_KEYWORDS (job_type self) ""
        :: map snd (filter fst (extras_vars self))
        ++ (if truth (strip (custom_keywords self))
            then [strip (custom_keywords self)] else []))%list ->
  contains x p = true ->
  contains x (build_keywords self) = true.
Proof.
  intros Hne Hin Hp. rewrite build_keywords_tokens.
  apply contains_join with (p := p); [ | exact Hp].
  unfold keyword_tokens. apply filter_In. split; [exact Hin | ].
  apply truth_true. now apply contains_nonempty with (x := x).
Qed.

Lemma cpcm_flag_keyword (self : App) :
  cpcm self = true -> contains "CPCM" (build_keywords self) = true.
Proof.
  intros Hc. apply contains_build_keywords with (p := "CPCM");
    [discriminate | | reflexivity].
  right. apply in_or_app. left. unfold extras_vars. rewrite Hc.
  destruct (tightscf self), (d3bj self), (rij self), (grid5 self);
    cbn; tauto.
Qed.

Lemma solvation_job_keyword (self : App) :
  job_type self = "Solvation" ->
  contains "CPCM" (build_keywords self) = true.
Proof.
  intros Hj.
  apply contains_build_keywords with (p := "Opt CPCM");
    [discriminate | | reflexivity].
  left. now rewrite Hj.
Qed.

Lemma custom_keyword_contains (x : string) (self : App) :
  x <> "" -> trimmed x ->
  contains x (custom_keywords self) = true ->
  contains x (build_keywords self) = true.
Proof.
  intros Hne Ht Hc.
  pose proof (@contains_strip x _ Hne Ht Hc) as Hs.
  apply contains_build_keywords with (p := strip (custom_keywords self));
    [exact Hne | | exact Hs].
  right. apply in_or_app. right.
  assert (Htr : truth (strip (custom_keywords self)) = true).
  { apply truth_true. now apply contains_nonempty with (x := x). }
  rewrite Htr. now left.
Qed.

End Substrings.

(** * Coordinate formatting *)

Section FormatCoords.

(** What [format_coords] does once its text is trimmed and non-empty. *)
Lemma format_coords_nonblank (text : string) :
  blank text = false ->
  format_coords text =
  (let lines := splitlines (strip text) in
   if (1 <? List.length lines)%nat && isdigit (strip (hd "" lines))
   then Ok (strip (join nl (slice_from 2 lines)))
   else Ok (strip text)).
Proof.
  intros Hb. unfold format_coords.
  assert (Ht : truth (strip text) = true).
  { apply truth_true. intros E. apply strip_empty_iff in E. congruence. }
  rewrite Ht. cbn [negb].
  destruct (splitlines (strip text)) as [|l0 ls]; [reflexivity | ].
  cbv zeta. destruct (1 <? List.length (l0 :: ls))%nat; [ | reflexivity].
  cbn [index nth_error bind ret hd andb].
  destruct (isdigit (strip l0)); reflexivity.
Qed.

Lemma format_coords_blank (text : string) :
  blank text = true -> format_coords text = Ok "".
Proof.
  intros Hb. unfold format_coords. now rewrite (strip_blank _ Hb).
Qed.

(** [format_coords] raises nothing: [lines[0]] is read only after
    [len(lines) > 1]. *)
Lemma format_coords_total (text : string) :
  exists coords, format_coords text = Ok coords.
Proof.
  destruct (blank text) eqn:Hb.
  - exists "". now apply format_coords_blank.
  - rewrite (format_coords_nonblank _ Hb). cbv zeta.
    destruct (_ && _); eauto.
Qed.

(** C4, as amended: for a count line that trims to decimal digits, a
    comment line and atom lines, joined by LF, where the comment line or
    some atom line has a character that is not whitespace,
    [format_coords] returns the atom lines, joined by LF and trimmed:
    the count and comment lines are gone. *)
Theorem C4_format_coords_extended (c m : string) (atoms : list string) :
  isdecimal (strip c) = true ->
  isline c = true ->
  isline m = true ->
  Forall (fun a => isline a = true) atoms ->
  blank m = false \/ Exists (fun a => blank a = false) atoms ->
  format_coords (join nl (c :: m :: atoms)) = Ok (strip (join nl atoms)).
Proof.
  intros Hd Hc Hm Hatoms Hnb.
  assert (HB : blank (join nl (m :: atoms)) = false).
  { rewrite blank_join. cbn [forallb]. destruct Hnb as [-> | Hex]; [reflexivity | ].
    apply andb_false_iff. right.
    apply Exists_exists in Hex. destruct Hex as (a & Hin & Ha).
    destruct (forallb blank atoms) eqn:E; [ | reflexivity].
    rewrite forallb_forall in E. rewrite (E _ Hin) in Ha. discriminate. }
  assert (Hcb : blank c = false).
  { destruct (blank c) eqn:E; [ | reflexivity].
    rewrite (strip_blank _ E) in Hd. discriminate. }
  rewrite join_cons by discriminate.
  set (B := join nl (m :: atoms)) in *.
  assert (Hstrip : strip (c ++ nl ++ B) = lstrip c ++ nl ++ rstrip B).
  { unfold strip. rewrite lstrip_app, Hcb.
    rewrite rstrip_app, blank_app, HB, andb_false_r.
    now rewrite rstrip_app, HB. }
  rewrite format_coords_nonblank
    by (rewrite !blank_app, Hcb; reflexivity).
  rewrite Hstrip. cbv zeta.
  rewrite splitlines_line by now apply all_chars_lstrip.
  destruct (splitlines (rstrip B)) as [|l1 ls] eqn:Hs.
  { apply splitlines_empty_iff, rstrip_empty_iff in Hs. congruence. }
  cbn [List.length hd slice_from skipn].
  replace (strip (lstrip c)) with (strip c)
    by (unfold strip; now rewrite lstrip_idem).
  rewrite (decimal_isdigit _ Hd). cbn [Nat.ltb Nat.leb andb].
  f_equal.
  change ls with (skipn 1 (l1 :: ls)). rewrite <- Hs.
  now apply strip_tail_lines.
Qed.

(** C5, as amended: on a text that is not blank and, once trimmed, has a
    single line or a first line that trims to something other than a
    string of digits ([str.isdigit]), [format_coords] returns the trimmed
    text, and formatting that again changes nothing; on a blank text it
    returns the empty string. *)
Theorem C5_format_coords_bare (text : string) :
  (blank text = true -> format_coords text = Ok "") /\
  (blank text = false ->
   (List.length (splitlines (strip text)) <= 1)%nat \/
   isdigit (strip (hd "" (splitlines (strip text)))) = false ->
   format_coords text = Ok (strip text) /\
   format_coords (strip text) = Ok (strip text)).
Proof.
  split; [apply format_coords_blank | ].
  intros Hb Hbare.
  assert (Hb' : blank (strip text) = false).
  { destruct (blank (strip text)) eqn:E; [ | reflexivity].
    apply strip_empty_iff in E. rewrite strip_idem in E.
    apply strip_empty_iff in E. congruence. }
  assert (Hcond : (1 <? List.length (splitlines (strip text)))%nat
                  && isdigit (strip (hd "" (splitlines (strip text)))) = false).
  { destruct Hbare as [Hlen | Hdig].
    - apply Nat.ltb_ge in Hlen. now rewrite Hlen.
    - rewrite Hdig. apply andb_false_r. }
  split.
  - rewrite (format_coords_nonblank _ Hb). cbv zeta. now rewrite Hcond.
  - rewrite (format_coords_nonblank _ Hb'), strip_idem. cbv zeta.
    now rewrite Hcond.
Qed.

End FormatCoords.

(** * The assembled document *)

Section Assembly.

Lemma Ok_inj {A} (a b : A) : Ok a = Ok b -> a = b.
Proof. congruence. Qed.

Lemma coords_used_total (self : App) :
  exists coords, coords_used self = Ok coords.
Proof.
  unfold coords_used. destruct (auto_format_coords self).
  - apply format_coords_total.
  - eexists. reflexivity.
Qed.

(** The three tests of line 250 come down to the first one: the CPCM
    check button and the job type "Solvation" both put the word into
    the keyword string. *)
Lemma solvent_test (self : App) :
  contains "CPCM" (build_keywords self)
  || String.eqb (job_type self) "Solvation" || cpcm self
  = contains "CPCM" (build_keywords self).
Proof.
  destruct (contains "CPCM" (build_keywords self)) eqn:Hk; [reflexivity | ].
  destruct (String.eqb_spec (job_type self) "Solvation") as [Hj | Hj].
  - apply solvation_job_keyword in Hj. congruence.
  - destruct (cpcm self) eqn:Hc; [ | reflexivity].
    apply cpcm_flag_keyword in Hc. congruence.
Qed.

Lemma solvent_requested_iff (self : App) :
  solvent_requested self <-> contains "CPCM" (build_keywords self) = true.
Proof.
  unfold solvent_requested. split.
  - intros [Hc | [Hk | Hj]];
      [now apply cpcm_flag_keyword | exact Hk | now apply solvation_job_keyword].
  - tauto.
Qed.

Lemma header_line_code (self : App) :
  (if truth (build_keywords self)
   then ("! " ++ strip (method self) ++ " " ++ strip (basis self))
        ++ " " ++ build_keywords self
   else "! " ++ strip (method self) ++ " " ++ strip (basis self))
  = header_line self.
Proof.
  unfold header_line.
  rewrite truth_build_keywords, build_keywords_tokens.
  destruct (keyword_tokens self).
  - now rewrite append_empty_r.
  - now rewrite !append_assoc.
Qed.

(** [build_input] computes the coordinate text and writes the document. *)
Lemma build_input_document (self : App) :
  build_input self =
  (coords <- coords_used self ;;
   ret (document self (contains "CPCM" (build_keywords self)) coords))%exc.
Proof.
  unfold build_input. cbv zeta.
  rewrite solvent_test, header_line_code.
  fold (coords_used self).
  destruct (coords_used self) as [coords | e]; [ | reflexivity].
  cbn [bind ret]. f_equal.
  unfold document, preamble, custom_segment, coordinate_segment,
    coordinate_directive, resource_directive, solvent_directive.
  destruct (truth (strip (cb_text self))) eqn:Hcb.
  - destruct (contains "CPCM" (build_keywords self)), (truth coords);
      repeat rewrite append_assoc; reflexivity.
  - apply truth_false in Hcb. rewrite Hcb.
    destruct (contains "CPCM" (build_keywords self)), (truth coords);
      repeat rewrite append_assoc; reflexivity.
Qed.

Lemma build_input_ok (self : App) (coords : string) :
  coords_used self = Ok coords ->
  build_input self
  = Ok (document self (contains "CPCM" (build_keywords self)) coords).
Proof. intros H. now rewrite build_input_document, H. Qed.

Lemma append_longer (a b : string) : a <> "" -> a ++ b <> b.
Proof.
  intros Hne E. apply (f_equal String.length) in E.
  rewrite append_length in E. destruct a; [congruence | simpl in E; lia].
Qed.

(** Documents with and without the solvent directive differ. *)
Lemma document_solvent_inj (self : App) (b1 b2 : bool) (coords : string) :
  document self b1 coords = document self b2 coords -> b1 = b2.
Proof.
  unfold document. intros E. apply append_inv_head in E.
  assert (Hne : solvent_directive (solvent self) ++ nl <> "")
    by discriminate.
  destruct b1, b2; try reflexivity; exfalso.
  - exact (append_longer _ _ Hne E).
  - exact (append_longer _ _ Hne (eq_sym E)).
Qed.

Lemma coords_used_blank (self : App) :
  blank (coords_text self) = true -> coords_used self = Ok "".
Proof.
  intros Hb. unfold coords_used. destruct (auto_format_coords self).
  - now apply format_coords_blank.
  - cbn [ret]. now rewrite (strip_blank _ Hb).
Qed.

(** C6: the document is, in this order, the header line and a blank
    line, the resource directive and a blank line, the solvent directive
    and a blank line when it is asked for, the trimmed custom text and a
    blank line when it is not empty, and the coordinate directive when
    the coordinate text is not empty.  With custom text and a blank
    coordinate text the document ends with the custom text and its
    blank line.  The header line and the resource directive always
    open the document. *)
Theorem C6_assembly_order (self : App) :
  exists coords,
    coords_used self = Ok coords /\
    build_input self =
      Ok (header_line self ++ nl ++ nl
          ++ resource_directive self ++ nl
          ++ (if contains "CPCM" (build_keywords self)
              then solvent_directive (solvent self) ++ nl else "")
          ++ (if truth (strip (cb_text self))
              then strip (cb_text self) ++ nl ++ nl else "")
          ++ (if truth coords
              then coordinate_directive self coords else "")) /\
    (blank (cb_text self) = false -> blank (coords_text self) = true ->
     exists front,
       build_input self = Ok (front ++ strip (cb_text self) ++ nl ++ nl)) /\
    (exists rest,
       build_input self =
         Ok (header_line self ++ nl ++ nl
             ++ resource_directive self ++ nl ++ rest)).
Proof.
  destruct (coords_used_total self) as [coords Hc].
  exists coords. split; [exact Hc | ].
  rewrite (build_input_ok _ _ Hc).
  unfold document, preamble, custom_segment, coordinate_segment.
  repeat rewrite append_assoc.
  split; [reflexivity | split].
  - intros Hcb Hblank.
    rewrite (coords_used_blank _ Hblank) in Hc. apply Ok_inj in Hc. subst coords.
    assert (Ht : truth (strip (cb_text self)) = true).
    { apply truth_true. intros E. apply strip_empty_iff in E. congruence. }
    rewrite Ht. cbn [truth].
    exists (header_line self ++ nl ++ nl ++ resource_directive self ++ nl
            ++ (if contains "CPCM" (build_keywords self)
                then solvent_directive (solvent self) ++ nl else "")).
    repeat rewrite append_assoc.
    destruct (contains "CPCM" (build_keywords self));
      repeat rewrite append_assoc; repeat rewrite append_empty_r; reflexivity.
  - eexists. reflexivity.
Qed.

(** C3: the solvent directive is in the document exactly when the CPCM
    check button is set, or the keyword string holds "CPCM", or the job
    type is "Solvation"; it is the block opened by [%cpcm] with the line
    [smd true] and the line [SMDsolvent] giving the solvent in quotes,
    as selected.  With the check button set, solvent "Water" and job
    type "Single Point (SP)" the block with [SMDsolvent "Water"] is
    there; with job type "Solvation" and the button not set the block
    is there too. *)
Theorem C3_solvent_directive (self : App) :
  exists coords,
    coords_used self = Ok coords /\
    (build_input self
       = Ok (preamble self
             ++ ("%cpcm" ++ nl ++ "  smd true" ++ nl ++ "  SMDsolvent "
                 ++ dquote ++ solvent self ++ dquote ++ nl ++ "end" ++ nl ++ nl)
             ++ custom_segment self ++ coordinate_segment self coords)
     <-> solvent_requested self) /\
    (build_input self
       = Ok (preamble self
             ++ custom_segment self ++ coordinate_segment self coords)
     <-> ~ solvent_requested self) /\
    (cpcm self = true -> solvent self = "Water" ->
     job_type self = "Single Point (SP)" ->
     build_input self
       = Ok (preamble self
             ++ ("%cpcm" ++ nl ++ "  smd true" ++ nl ++ "  SMDsolvent "
                 ++ dquote ++ "Water" ++ dquote ++ nl ++ "end" ++ nl ++ nl)
             ++ custom_segment self ++ coordinate_segment self coords)) /\
    (job_type self = "Solvation" -> cpcm self = false ->
     build_input self = Ok (document self true coords)).
Proof.
  destruct (coords_used_total self) as [coords Hc].
  exists coords. split; [exact Hc | ].
  pose proof (build_input_ok _ _ Hc) as Hdoc.
  pose proof (solvent_requested_iff self) as Hreq.
  assert (Hwith : forall sol, sol = solvent self ->
    preamble self
    ++ ("%cpcm" ++ nl ++ "  smd true" ++ nl ++ "  SMDsolvent "
        ++ dquote ++ sol ++ dquote ++ nl ++ "end" ++ nl ++ nl)
    ++ custom_segment self ++ coordinate_segment self coords
    = document self true coords).
  { intros sol ->. unfold document, solvent_directive.
    repeat rewrite append_assoc. reflexivity. }
  assert (Hwithout :
    preamble self ++ custom_segment self ++ coordinate_segment self coords
    = document self false coords) by reflexivity.
  assert (Hyes : solvent_requested self ->
                 build_input self = Ok (document self true coords)).
  { intros H. apply Hreq in H. now rewrite Hdoc, H. }
  rewrite (Hwith _ eq_refl), Hwithout.
  repeat split.
  - intros E. rewrite Hdoc in E. apply Ok_inj in E.
    apply document_solvent_inj in E. now apply Hreq.
  - exact Hyes.
  - intros E Hr. rewrite (Hyes Hr) in E. apply Ok_inj in E.
    apply document_solvent_inj in E. discriminate.
  - intros Hn. rewrite Hdoc.
    destruct (contains "CPCM" (build_keywords self)); [ | reflexivity].
    exfalso. now apply Hn, Hreq.
  - intros Hflag Hsol _. rewrite (Hwith _ (eq_sym Hsol)).
    apply Hyes. now left.
  - intros Hj _. apply Hyes. right. now right.
Qed.

(** C10: the test on the keyword string is a substring test.  Whenever
    the keyword string holds the characters "CPCM" the solvent directive
    is in the document, whatever the CPCM check button and the job type
    are; the characters get there from anywhere in the custom keywords,
    inside a longer word too, and from the keywords "Opt CPCM" of the
    job type "Solvation". *)
Theorem C10_substring_trigger (self : App) :
  (contains "CPCM" (build_keywords self) = true ->
   exists coords,
     coords_used self = Ok coords /\
     build_input self = Ok (document self true coords)) /\
  (forall before after : string,
     custom_keywords self = before ++ "CPCM" ++ after ->
     contains "CPCM" (build_keywords self) = true) /\
  (dict_get JOB_KEYWORDS "Solvation" "" = "Opt CPCM" /\
   (job_type self = "Solvation" ->
    contains "CPCM" (build_keywords self) = true)).
Proof.
  split; [ | split; [ | split]].
  - intros Hk. destruct (coords_used_total self) as [coords Hc].
    exists coords. split; [exact Hc | ].
    now rewrite (build_input_ok _ _ Hc), Hk.
  - intros before after Hck.
    apply custom_keyword_contains;
      [discriminate | split; reflexivity | ].
    apply contains_spec. now exists before, after.
  - reflexivity.
  - apply solvation_job_keyword.
Qed.

(** Characters that no part of the document adds. *)

Lemma all_chars_strip p (s : string) :
  all_chars p s = true -> all_chars p (strip s) = true.
Proof. intros H. now apply all_chars_rstrip, all_chars_lstrip. Qed.

Lemma all_chars_join p (sep : string) (ps : list string) :
  all_chars p sep = true ->
  Forall (fun t => all_chars p t = true) ps ->
  all_chars p (join sep ps) = true.
Proof.
  intros Hsep. induction 1 as [|t ts Ht Hts IH]; [reflexivity | ].
  destruct ts as [|t' ts]; [exact Ht | ].
  rewrite join_cons by discriminate.
  now rewrite !all_chars_app, Ht, Hsep, IH.
Qed.

Lemma starless_header_line (self : App) :
  starless (method self) = true ->
  starless (basis self) = true ->
  starless (custom_keywords self) = true ->
  starless (header_line self) = true.
Proof.
  intros Hm Hb Hk. unfold starless, header_line in *.
  rewrite !all_chars_app, (all_chars_strip _ _ Hm), (all_chars_strip _ _ Hb).
  cbn [all_chars andb]. change (negb (" " =? "*")%char) with true.
  change (negb ("!" =? "*")%char) with true. cbn [andb].
  assert (Htoks : Forall (fun t => all_chars
            (fun c => negb (c =? "*")%char) t = true) (keyword_tokens self)).
  { unfold keyword_tokens. apply Forall_forall. intros t Hin.
    apply filter_In in Hin. destruct Hin as [[<- | Hin] _].
    - apply job_keyword_ind; [reflexivity | repeat constructor].
    - apply in_app_or in Hin. destruct Hin as [Hin | Hin].
      + assert (H : Forall (fun t => all_chars
                  (fun c => negb (c =? "*")%char) t = true)
                  (map snd (filter fst (extras_vars self))))
          by (apply Forall_map_filter; repeat constructor).
        rewrite Forall_forall in H. auto.
      + destruct (truth (strip (custom_keywords self))); [ | contradiction].
        destruct Hin as [<- | []]. now apply all_chars_strip. }
  pose proof (all_chars_join (fun c => negb (c =? "*")%char) " " _
                eq_refl Htoks) as Hj.
  destruct (keyword_tokens self); [reflexivity | ].
  rewrite all_chars_app, Hj. reflexivity.
Qed.

Lemma starless_document (self : App) (b : bool) :
  starless (method self) = true ->
  starless (basis self) = true ->
  starless (custom_keywords self) = true ->
  starless (maxcore self) = true ->
  starless (nprocs self) = true ->
  starless (solvent self) = true ->
  starless (cb_text self) = true ->
  starless (document self b "") = true.
Proof.
  intros Hm Hb Hk Hmc Hnp Hs Hcb.
  pose proof (starless_header_line _ Hm Hb Hk) as Hh.
  pose proof (all_chars_strip _ _ Hcb) as Hcb'.
  unfold starless, document, preamble, resource_directive, solvent_directive,
    custom_segment, coordinate_segment in *.
  cbn [truth].
  destruct b, (truth (strip (cb_text self)));
    repeat rewrite all_chars_app;
    rewrite ?Hh, ?Hmc, ?Hnp, ?Hs, ?Hcb'; reflexivity.
Qed.

Lemma document_coords (self : App) (b : bool) (coords : string) :
  coords <> "" ->
  document self b coords
  = document self b "" ++ "* xyz " ++ charge self ++ " " ++ mult self ++ nl
    ++ coords ++ nl ++ "*" ++ nl.
Proof.
  intros Hne. apply truth_true in Hne.
  unfold document, coordinate_segment, coordinate_directive.
  rewrite Hne. cbn [truth].
  destruct b; repeat rewrite append_assoc;
    repeat rewrite append_empty_r; reflexivity.
Qed.

(** C7: the coordinate directive is in the document exactly when the
    coordinate text used is not empty; it is the line [* xyz] with the
    charge and the multiplicity as given, the coordinate lines, and the
    line [*].  On a blank coordinate text nothing of it is written: the
    document stops after the earlier segments, and a [*] can only come
    from the other fields. *)
Theorem C7_coordinate_directive (self : App) :
  exists coords front,
    coords_used self = Ok coords /\
    front = document self (contains "CPCM" (build_keywords self)) "" /\
    (build_input self
       = Ok (front ++ "* xyz " ++ charge self ++ " " ++ mult self ++ nl
             ++ coords ++ nl ++ "*" ++ nl)
     <-> coords <> "") /\
    (build_input self = Ok front <-> coords = "") /\
    (blank (coords_text self) = true ->
     build_input self = Ok front /\
     (starless (method self) = true -> starless (basis self) = true ->
      starless (custom_keywords self) = true ->
      starless (maxcore self) = true -> starless (nprocs self) = true ->
      starless (solvent self) = true -> starless (cb_text self) = true ->
      starless front = true)).
Proof.
  destruct (coords_used_total self) as [coords Hc].
  exists coords, (document self (contains "CPCM" (build_keywords self)) "").
  split; [exact Hc | split; [reflexivity | ]].
  pose proof (build_input_ok _ _ Hc) as Hdoc.
  set (b := contains "CPCM" (build_keywords self)) in *.
  assert (Hdir : forall c, "* xyz " ++ charge self ++ " " ++ mult self ++ nl
                           ++ c ++ nl ++ "*" ++ nl <> "") by discriminate.
  assert (Hgrow : forall c,
    document self b "" ++ "* xyz " ++ charge self ++ " " ++ mult self ++ nl
      ++ c ++ nl ++ "*" ++ nl <> document self b "").
  { intros c E.
    apply (f_equal String.length) in E. rewrite append_length in E.
    specialize (Hdir c).
    destruct ("* xyz " ++ charge self ++ " " ++ mult self ++ nl
              ++ c ++ nl ++ "*" ++ nl); [congruence | simpl in E; lia]. }
  split; [ | split].
  - split.
    + intros E ->. rewrite Hdoc in E. apply Ok_inj in E.
      symmetry in E. revert E. apply Hgrow.
    + intros Hne. now rewrite Hdoc, (document_coords _ _ _ Hne).
  - split.
    + intros E. destruct coords as [|x coords]; [reflexivity | exfalso].
      rewrite Hdoc, document_coords in E by discriminate.
      apply Ok_inj in E. revert E. apply Hgrow.
    + intros ->. exact Hdoc.
  - intros Hblank. rewrite (coords_used_blank _ Hblank) in Hc.
    apply Ok_inj in Hc. subst coords.
    split; [exact Hdoc | ]. apply starless_document.
Qed.

(** Trimming a text that opens with a count line. *)
Lemma strip_count_line (c rest : string) :
  blank c = false ->
  strip (c ++ nl ++ rest) =
  if blank rest then strip c else lstrip c ++ nl ++ rstrip rest.
Proof.
  intros Hc. unfold strip. rewrite lstrip_app, Hc.
  rewrite rstrip_app, blank_app. change (blank nl) with true. cbn [andb].
  destruct (blank rest) eqn:Hr; [reflexivity | ].
  now rewrite rstrip_app, Hr.
Qed.

(** C8: with auto-format off the coordinate text used is the text of
    the widget, trimmed, and nothing else is looked at.  For a text that
    opens with a count line of decimal digits, then a comment line and
    the atom lines, the trimmed text still opens with the count line,
    and everything after it stays up to the trailing whitespace; with
    an atom line that is not blank, the count line and the comment line
    stand in the coordinate directive of the document. *)
Theorem C8_auto_format_off (self : App) :
  auto_format_coords self = false ->
  coords_used self = Ok (strip (coords_text self)) /\
  build_input self
    = Ok (document self (contains "CPCM" (build_keywords self))
                   (strip (coords_text self))) /\
  forall (c m : string) (atoms : list string),
    isdecimal (strip c) = true ->
    coords_text self = join nl (c :: m :: atoms) ->
    strip (coords_text self)
      = (if blank (join nl (m :: atoms)) then strip c
         else lstrip c ++ nl ++ rstrip (join nl (m :: atoms))) /\
    (Exists (fun a => blank a = false) atoms ->
     build_input self
       = Ok (document self (contains "CPCM" (build_keywords self)) ""
             ++ "* xyz " ++ charge self ++ " " ++ mult self ++ nl
             ++ (lstrip c ++ nl ++ m ++ nl ++ rstrip (join nl atoms))
             ++ nl ++ "*" ++ nl)).
Proof.
  intros Hoff.
  assert (Hc : coords_used self = Ok (strip (coords_text self)))
    by (unfold coords_used; now rewrite Hoff).
  pose proof (build_input_ok _ _ Hc) as Hdoc.
  split; [exact Hc | split; [exact Hdoc | ]].
  intros c m atoms Hd Htext.
  assert (Hcb : blank c = false).
  { destruct (blank c) eqn:E; [ | reflexivity].
    rewrite (strip_blank _ E) in Hd. discriminate. }
  assert (Hstrip : strip (coords_text self)
      = (if blank (join nl (m :: atoms)) then strip c
         else lstrip c ++ nl ++ rstrip (join nl (m :: atoms)))).
  { rewrite Htext, join_cons by discriminate. now apply strip_count_line. }
  split; [exact Hstrip | ].
  intros Hex.
  assert (HJ : blank (join nl atoms) = false).
  { rewrite blank_join. apply Exists_exists in Hex.
    destruct Hex as (a & Hin & Ha).
    destruct (forallb blank atoms) eqn:E; [ | reflexivity].
    rewrite forallb_forall in E. rewrite (E _ Hin) in Ha. discriminate. }
  assert (Hatoms : atoms <> []) by (intros ->; inversion Hex).
  rewrite join_cons in Hstrip by exact Hatoms.
  rewrite !blank_app, HJ, !andb_false_r in Hstrip.
  rewrite rstrip_app, blank_app, HJ, andb_false_r in Hstrip.
  rewrite rstrip_app, HJ in Hstrip.
  rewrite Hdoc, Hstrip. rewrite document_coords; [reflexivity | ].
  destruct (lstrip c); discriminate.
Qed.

Lemma dict_get_missing (d : list (string * string)) (key default : string) :
  (forall v, ~ In (key, v) d) -> dict_get d key default = default.
Proof.
  induction d as [|[k v] d IH]; intros Hmiss; [reflexivity | ].
  cbn [dict_get]. destruct (String.eqb_spec k key) as [-> | Hne].
  - exfalso. apply (Hmiss v). now left.
  - apply IH. intros v' Hin. apply (Hmiss v'). now right.
Qed.

(** C9: [build_input] always returns a document and raises nothing,
    whatever the strings for charge, solvent and job type are; a job
    type that is not a key of the table gives the empty keyword; and the
    document is a function of the fields read: two applications that
    agree on them get the same document. *)
Theorem C9_total_deterministic (self : App) :
  (exists doc, build_input self = Ok doc) /\
  ((forall v, ~ In (job_type self, v) JOB_KEYWORDS) ->
   dict_get JOB_KEYWORDS (job_type self) "" = "" /\
   keyword_tokens self
   = filter truth
       (map snd (filter fst (extras_vars self))
        ++ (if truth (strip (custom_keywords self))
            then [strip (custom_keywords self)] else []))%list) /\
  (forall other : App,
     job_type other = job_type self -> method other = method self ->
     basis other = basis self -> charge other = charge self ->
     mult other = mult self ->
     custom_keywords other = custom_keywords self ->
     solvent other = solvent self -> tightscf other = tightscf self ->
     d3bj other = d3bj self -> rij other = rij self ->
     grid5 other = grid5 self -> cpcm other = cpcm self ->
     verytightscf other = verytightscf self ->
     slowconv other = slowconv self -> defgrid3 other = defgrid3 self ->
     defgridx other = defgridx self -> maxcore other = maxcore self ->
     nprocs other = nprocs self ->
     auto_format_coords other = auto_format_coords self ->
     coords_text other = coords_text self -> cb_text other = cb_text self ->
     build_input other = build_input self).
Proof.
  split; [ | split].
  - destruct (coords_used_total self) as [coords Hc].
    eexists. now apply build_input_ok with (coords := coords).
  - intros Hmiss.
    pose proof (dict_get_missing JOB_KEYWORDS (job_type self) "" Hmiss) as Hg.
    split; [exact Hg | ].
    unfold keyword_tokens. now rewrite Hg.
  - intros other. destruct other, self. cbn.
    intros; subst; reflexivity.
Qed.

(** C2, as amended: the document opens with the header line, which is
    the marker [! ], the trimmed method, a space, the trimmed basis and,
    when there is any keyword token, a space and the tokens joined by
    single spaces: the job keyword if any, then the token of each set
    flag in the order TightSCF, D3BJ, RIJCOSX, Grid5, CPCM,
    VeryTightSCF, SlowConv, DefGrid3, DefGridX, then the trimmed custom
    keywords if not empty.  With no flag set and blank custom keywords
    the header line holds the method, the basis and the job keyword (if
    any) and nothing else. *)
Theorem C2_header_line (self : App) :
  (exists rest,
     build_input self
       = Ok (header_line self ++ nl ++ nl ++ "%maxcore " ++ rest)) /\
  build_keywords self = join " " (keyword_tokens self) /\
  keyword_tokens self
    = filter truth
        ([dict_get JOB_KEYWORDS (job_type self) ""]
         ++ (if tightscf self then ["TightSCF"] else [])
         ++ (if d3bj self then ["D3BJ"] else [])
         ++ (if rij self then ["RIJCOSX"] else [])
         ++ (if grid5 self then ["Grid5"] else [])
         ++ (if cpcm self then ["CPCM"] else [])
         ++ (if verytightscf self then ["VeryTightSCF"] else [])
         ++ (if slowconv self then ["SlowConv"] else [])
         ++ (if defgrid3 self then ["DefGrid3"] else [])
         ++ (if defgridx self then ["DefGridX"] else [])
         ++ (if truth (strip (custom_keywords self))
             then [strip (custom_keywords self)] else []))%list /\
  (tightscf self = false -> d3bj self = false -> rij self = false ->
   grid5 self = false -> cpcm self = false -> verytightscf self = false ->
   slowconv self = false -> defgrid3 self = false ->
   defgridx self = false -> blank (custom_keywords self) = true ->
   header_line self
   = "! " ++ strip (method self) ++ " " ++ strip (basis self)
     ++ (if truth (dict_get JOB_KEYWORDS (job_type self) "")
         then " " ++ dict_get JOB_KEYWORDS (job_type self) "" else "")).
Proof.
  split; [ | split; [apply build_keywords_tokens | split]].
  - destruct (coords_used_total self) as [coords Hc].
    rewrite (build_input_ok _ _ Hc).
    unfold document, preamble, resource_directive.
    repeat rewrite append_assoc. eexists. reflexivity.
  - unfold keyword_tokens, extras_vars.
    destruct (tightscf self), (d3bj self), (rij self), (grid5 self),
      (cpcm self), (verytightscf self), (slowconv self), (defgrid3 self),
      (defgridx self); reflexivity.
  - intros H1 H2 H3 H4 H5 H6 H7 H8 H9 Hck.
    unfold header_line, keyword_tokens, extras_vars.
    rewrite H1, H2, H3, H4, H5, H6, H7, H8, H9, (strip_blank _ Hck).
    cbn [filter fst map snd app truth].
    destruct (dict_get JOB_KEYWORDS (job_type self) ""); reflexivity.
Qed.

(** C1, as amended: for job type "Single Point (SP)", method B3LYP,
    basis def2-SVP, TightSCF alone set, charge 0, multiplicity 1,
    maxcore 2000, nprocs 4 and empty coordinate and custom texts, the
    document is the header line [! B3LYP def2-SVP SP TightSCF] (the job
    keyword SP comes after the basis), a blank line, [%maxcore 2000],
    [%pal nprocs 4 end] and a blank line; no solvent, custom or
    coordinate block follows, whatever the solvent selected and the
    auto-format setting. *)
Theorem C1_default_document (sol : string) (auto : bool) :
  build_input
    (mkApp "Single Point (SP)" "B3LYP" "def2-SVP" "0" "1" "" sol
           true false false false false false false false false
           "2000" "4" auto "" "")
  = Ok ("! B3LYP def2-SVP SP TightSCF" ++ nl ++ nl
        ++ "%maxcore 2000" ++ nl ++ "%pal nprocs 4 end" ++ nl ++ nl).
Proof. destruct auto; reflexivity. Qed.

End Assembly.

(** * Inputs on which the specification's wording fails *)

(** C1: the document of the example has the job keyword SP in its
    header line; it is not the document without it. *)
Lemma C1_counterexample :
  build_input default_app
  <> Ok ("! B3LYP def2-SVP TightSCF" ++ nl ++ nl
         ++ "%maxcore 2000" ++ nl ++ "%pal nprocs 4 end" ++ nl ++ nl).
Proof. vm_compute. discriminate. Qed.

(** C2: the document of the example does not open with the header line
    that has the job keyword first. *)
Lemma C2_counterexample :
  header_line_job_first default_app = "! SP B3LYP def2-SVP TightSCF" /\
  ~ exists rest,
      build_input default_app
      = Ok (header_line_job_first default_app ++ nl ++ rest).
Proof.
  split; [reflexivity | ].
  intros [rest H]. vm_compute in H. discriminate.
Qed.

(** C4: a count line "0", an empty comment line and no atom line; the
    trimmed text has one line, and the count comes back. *)
Lemma C4_counterexample :
  isdecimal (strip "0") = true /\ isline "0" = true /\ isline "" = true /\
  format_coords (join nl ["0"; ""]) = Ok "0" /\
  format_coords (join nl ["0"; ""]) <> Ok (strip (join nl [])).
Proof. vm_compute. repeat split; discriminate. Qed.

(** C5: a first line that is a superscript two is no decimal digit, but
    [str.isdigit] accepts it, and two lines are dropped. *)
Lemma C5_counterexample :
  let text := String "178"%char (nl ++ "foo" ++ nl ++ "bar") in
  text <> "" /\
  isdecimal (strip (hd "" (splitlines (strip text)))) = false /\
  format_coords text = Ok "bar" /\
  format_coords text <> Ok (strip text).
Proof. vm_compute. repeat split; discriminate. Qed.

(** * The theorems at concrete inputs *)

Lemma C2_witness : header_line bare_app = "! PBE0 def2-TZVP Opt Freq".
Proof.
  exact (proj2 (proj2 (proj2 (C2_header_line bare_app)))
           eq_refl eq_refl eq_refl eq_refl eq_refl eq_refl eq_refl eq_refl
           eq_refl eq_refl).
Defined.

Lemma C3_witness :
  exists coords,
    build_input cpcm_water_app
    = Ok (preamble cpcm_water_app
          ++ ("%cpcm" ++ nl ++ "  smd true" ++ nl ++ "  SMDsolvent "
              ++ dquote ++ "Water" ++ dquote ++ nl ++ "end" ++ nl ++ nl)
          ++ custom_segment cpcm_water_app
          ++ coordinate_segment cpcm_water_app coords).
Proof.
  destruct (C3_solvent_directive cpcm_water_app)
    as (coords & _ & _ & _ & Hwater & _).
  exists coords. apply Hwater; reflexivity.
Defined.

Lemma C4_witness :
  format_coords water_xyz = Ok (strip (join nl water_atoms)).
Proof.
  apply (C4_format_coords_extended "3" "water" water_atoms).
  - reflexivity.
  - reflexivity.
  - reflexivity.
  - repeat constructor.
  - left. reflexivity.
Defined.

Lemma C5_witness :
  format_coords (join nl water_atoms ++ nl)
    = Ok (strip (join nl water_atoms ++ nl)) /\
  format_coords (strip (join nl water_atoms ++ nl))
    = Ok (strip (join nl water_atoms ++ nl)).
Proof.
  apply (proj2 (C5_format_coords_bare (join nl water_atoms ++ nl))).
  - reflexivity.
  - right. reflexivity.
Defined.

Lemma C6_witness :
  exists front,
    build_input custom_only_app
    = Ok (front ++ strip (cb_text custom_only_app) ++ nl ++ nl).
Proof.
  destruct (C6_assembly_order custom_only_app)
    as (coords & _ & _ & Hend & _).
  apply Hend; reflexivity.
Defined.

Lemma C7_witness :
  exists front,
    build_input default_app = Ok front /\ starless front = true.
Proof.
  destruct (C7_coordinate_directive default_app)
    as (coords & front & _ & _ & _ & _ & Hblank).
  exists front. destruct (Hblank eq_refl) as [Hdoc Hstar].
  split; [exact Hdoc | apply Hstar; reflexivity].
Defined.

Lemma C8_witness :
  build_input raw_xyz_app
  = Ok (document raw_xyz_app false ""
        ++ "* xyz 0 1" ++ nl ++ water_xyz ++ nl ++ "*" ++ nl).
Proof.
  destruct (C8_auto_format_off raw_xyz_app eq_refl) as (_ & _ & Hext).
  destruct (Hext "3" "water" water_atoms eq_refl eq_refl) as [_ Hdoc].
  apply Hdoc. left. reflexivity.
Defined.

Lemma C9_witness :
  dict_get JOB_KEYWORDS (job_type odd_app) "" = "" /\
  keyword_tokens odd_app = [].
Proof.
  apply (proj1 (proj2 (C9_total_deterministic odd_app))).
  intros v Hin. simpl in Hin.
  repeat (destruct Hin as [Hin | Hin]; [discriminate | ]).
  exact Hin.
Defined.

Lemma C10_witness :
  exists coords,
    coords_used nocpcm_app = Ok coords /\
    build_input nocpcm_app = Ok (document nocpcm_app true coords).
Proof.
  destruct (C10_substring_trigger nocpcm_app) as (Hdoc & Hcustom & _).
  apply Hdoc. apply (Hcustom "No" ""). reflexivity.
Defined.

(** * Further properties of coordinate formatting *)

Section FormatCoordsMore.

Lemma strip_padding (a t b : string) :
  blank a = true -> blank b = true -> strip (a ++ t ++ b) = strip t.
Proof.
  intros Ha Hb. unfold strip.
  rewrite lstrip_app, Ha, !strip_comm, rstrip_app, Hb. reflexivity.
Qed.

Lemma isline_cons (x : ascii) (l : string) :
  isline (String x l) = negb (islinebreak_char x) && isline l.
Proof. reflexivity. Qed.

(** No line of [splitlines] holds a line boundary. *)
Lemma splitlines_islines_upto (n : nat) :
  forall s, String.length s <= n ->
            Forall (fun l => isline l = true) (splitlines s).
Proof.
  induction n as [|n IH]; intros s Hlen.
  - destruct s; [constructor | simpl in Hlen; lia].
  - destruct s as [|x s]; [constructor | ].
    simpl in Hlen. cbn [splitlines].
    destruct (islinebreak_char x) eqn:Hx.
    + constructor; [reflexivity | ].
      destruct s as [|y s]; [constructor | ].
      destruct ((code x =? 13) && (code y =? 10))%nat.
      * apply IH. simpl in Hlen. lia.
      * apply IH. lia.
    + assert (Hs : Forall (fun l => isline l = true) (splitlines s))
        by (apply IH; lia).
      destruct (splitlines s) as [|l ls].
      * constructor; [ | constructor]. rewrite isline_cons, Hx. reflexivity.
      * inversion Hs; subst. constructor; [ | assumption].
        rewrite isline_cons, Hx. assumption.
Qed.

Lemma splitlines_islines (s : string) :
  Forall (fun l => isline l = true) (splitlines s).
Proof. now apply splitlines_islines_upto with (n := String.length s). Qed.

Lemma Forall_skipn {A} (P : A -> Prop) (n : nat) (xs : list A) :
  Forall P xs -> Forall P (skipn n xs).
Proof.
  revert xs. induction n as [|n IH]; intros xs H; [exact H | ].
  destruct xs as [|x xs]; [constructor | ].
  inversion H; subst. cbn [skipn]. auto.
Qed.

Lemma length_lstrip (s : string) : String.length (lstrip s) <= String.length s.
Proof.
  induction s as [|x s IH]; [reflexivity | ].
  cbn [lstrip]. destruct (isspace_char x); simpl; lia.
Qed.

Lemma length_rstrip (s : string) : String.length (rstrip s) <= String.length s.
Proof.
  induction s as [|x s IH]; [reflexivity | ].
  rewrite rstrip_cons. destruct (blank (String x s)); simpl; lia.
Qed.

Lemma length_strip (s : string) : String.length (strip s) <= String.length s.
Proof.
  unfold strip. pose proof (length_rstrip (lstrip s)).
  pose proof (length_lstrip s). lia.
Qed.

Lemma length_join_tail (l : string) (ls : list string) :
  String.length (join nl ls) <= String.length (join nl (l :: ls)).
Proof.
  destruct ls as [|l' ls]; [simpl; lia | ].
  rewrite (join_cons nl l) by discriminate.
  rewrite !append_length. lia.
Qed.

Lemma length_join_skipn (n : nat) (ls : list string) :
  String.length (join nl (skipn n ls)) <= String.length (join nl ls).
Proof.
  revert ls. induction n as [|n IH]; intros ls; [reflexivity | ].
  destruct ls as [|l ls]; [reflexivity | ].
  cbn [skipn]. pose proof (IH ls). pose proof (length_join_tail l ls). lia.
Qed.

Lemma length_join_cons_char (x : ascii) (ls : list string) :
  String.length (join nl
    (match ls with [] => [String x ""] | l :: ls' => String x l :: ls' end))
  = S (String.length (join nl ls)).
Proof.
  destruct ls as [|l ls]; [reflexivity | ].
  destruct ls; reflexivity.
Qed.

Lemma length_join_empty_head (ls : list string) :
  String.length (join nl ("" :: ls)) <= S (String.length (join nl ls)).
Proof.
  destruct ls as [|l ls]; [simpl; lia | ].
  rewrite (join_cons nl "") by discriminate. simpl. lia.
Qed.

(** Joining the lines of a text with LF gives no more characters than
    the text has. *)
Lemma length_join_splitlines_upto (n : nat) :
  forall s, String.length s <= n ->
            String.length (join nl (splitlines s)) <= String.length s.
Proof.
  induction n as [|n IH]; intros s Hlen.
  - destruct s; [reflexivity | simpl in Hlen; lia].
  - destruct s as [|x s]; [reflexivity | ].
    simpl in Hlen. cbn [splitlines].
    destruct (islinebreak_char x).
    + destruct s as [|y s]; [simpl; lia | ].
      change (String.length (String x (String y s)))
        with (S (S (String.length s))).
      destruct ((code x =? 13) && (code y =? 10))%nat.
      * pose proof (length_join_empty_head (splitlines s)).
        assert (String.length (join nl (splitlines s)) <= String.length s)
          by (apply IH; simpl in Hlen; lia).
        lia.
      * pose proof (length_join_empty_head (splitlines (String y s))) as H1.
        assert (H2 : String.length (join nl (splitlines (String y s)))
                     <= String.length (String y s)) by (apply IH; lia).
        change (String.length (String y s)) with (S (String.length s)) in H2.
        lia.
    + rewrite length_join_cons_char.
      assert (String.length (join nl (splitlines s)) <= String.length s)
        by (apply IH; lia).
      simpl. lia.
Qed.

Lemma length_join_splitlines (s : string) :
  String.length (join nl (splitlines s)) <= String.length s.
Proof. now apply length_join_splitlines_upto with (n := String.length s). Qed.

(** X1: whatever the text, [format_coords] returns a text without
    whitespace at either end, so that trimming it again changes
    nothing. *)
Theorem format_coords_result_trimmed (text : string) :
  exists coords,
    format_coords text = Ok coords /\
    strip coords = coords /\ lstrip coords = coords /\ rstrip coords = coords.
Proof.
  assert (H : exists t, format_coords text = Ok (strip t)).
  { destruct (blank text) eqn:Hb.
    - exists "". now apply format_coords_blank.
    - rewrite (format_coords_nonblank _ Hb). cbv zeta.
      destruct (_ && _); eauto. }
  destruct H as [t Ht]. exists (strip t).
  split; [exact Ht | ].
  split; [apply strip_idem | split; [apply lstrip_strip | apply rstrip_strip]].
Qed.

(** X2: whitespace around the text does not count: with blank text
    put before and after it, such as the newline a text widget adds,
    [format_coords] returns the same. *)
Theorem format_coords_padding (before text after : string) :
  blank before = true -> blank after = true ->
  format_coords (before ++ text ++ after) = format_coords text.
Proof.
  intros Ha Hb. unfold format_coords.
  now rewrite (strip_padding _ _ _ Ha Hb).
Qed.

(** X3: when the two header lines are dropped, the lines that stay are
    joined by LF whatever terminated them: the result holds no line
    boundary other than LF, and splitting it again gives lines without
    any. *)
Theorem format_coords_normalises_terminators (text : string) :
  blank text = false ->
  (1 < List.length (splitlines (strip text)))%nat ->
  isdigit (strip (hd "" (splitlines (strip text)))) = true ->
  exists coords,
    format_coords text = Ok coords /\
    coords = strip (join nl (skipn 2 (splitlines (strip text)))) /\
    lf_only coords = true.
Proof.
  intros Hb Hlen Hdig.
  rewrite (format_coords_nonblank _ Hb). cbv zeta.
  apply Nat.ltb_lt in Hlen. rewrite Hlen, Hdig. cbn [andb].
  eexists. split; [reflexivity | split; [reflexivity | ]].
  apply all_chars_strip, lf_only_join, Forall_skipn, splitlines_islines.
Qed.

(** X4: [format_coords] never returns more characters than it was
    given. *)
Theorem format_coords_no_longer (text : string) :
  exists coords,
    format_coords text = Ok coords /\
    String.length coords <= String.length text.
Proof.
  destruct (blank text) eqn:Hb.
  - exists "". split; [now apply format_coords_blank | simpl; lia].
  - rewrite (format_coords_nonblank _ Hb). cbv zeta.
    pose proof (length_strip text) as Hs.
    destruct (_ && _); eexists; (split; [reflexivity | ]); [ | exact Hs].
    unfold slice_from.
    pose proof (length_strip (join nl (skipn 2 (splitlines (strip text))))).
    pose proof (length_join_skipn 2 (splitlines (strip text))).
    pose proof (length_join_splitlines (strip text)).
    lia.
Qed.

End FormatCoordsMore.

(** * Further properties of the keyword string and the document *)

Section AssemblyMore.

Lemma dict_get_present (d : list (string * string)) (key v : string) :
  Forall (fun kv => snd kv <> "") d ->
  In (key, v) d -> dict_get d key "" <> "".
Proof.
  induction 1 as [|[k v'] d Hne Hd IH]; intros Hin; [contradiction | ].
  cbn [dict_get]. destruct (String.eqb_spec k key) as [-> | Hk].
  - exact Hne.
  - destruct Hin as [E | Hin]; [congruence | auto].
Qed.

(** The job keyword is empty exactly for a job type that is no key of
    the table. *)
Lemma job_keyword_empty_iff (key : string) :
  dict_get JOB_KEYWORDS key "" = "" <->
  forall v, ~ In (key, v) JOB_KEYWORDS.
Proof.
  split.
  - intros E v Hin. revert E. apply dict_get_present with (v := v).
    + repeat constructor; discriminate.
    + exact Hin.
  - apply dict_get_missing.
Qed.

Lemma filter_truth_nil (ps : list string) :
  filter truth ps = [] <-> forall p, In p ps -> p = "".
Proof.
  induction ps as [|q ps IH]; cbn [filter].
  - split; [intros _ p [] | reflexivity].
  - destruct q as [|x q]; cbn [truth].
    + rewrite IH. split.
      * intros H p [<- | Hin]; auto.
      * intros H p Hin. apply H. now right.
    + split; [discriminate | ].
      intros H. specialize (H (String x q) (or_introl eq_refl)). discriminate.
Qed.

Lemma set_flag_label (self : App) (label : string) :
  In (true, label) (extras_vars self) ->
  In label (map snd (filter fst (extras_vars self))).
Proof.
  intros Hin. apply in_map_iff. exists (true, label).
  split; [reflexivity | ]. apply filter_In. now split.
Qed.

Lemma keyword_tokens_nil_iff (self : App) :
  keyword_tokens self = [] <->
  (forall v, ~ In (job_type self, v) JOB_KEYWORDS) /\
  (tightscf self = false /\ d3bj self = false /\ rij self = false /\
   grid5 self = false /\ cpcm self = false /\ verytightscf self = false /\
   slowconv self = false /\ defgrid3 self = false /\ defgridx self = false) /\
  blank (custom_keywords self) = true.
Proof.
  unfold keyword_tokens. rewrite filter_truth_nil. split.
  - intros H. split; [ | split].
    + apply job_keyword_empty_iff. apply H. now left.
    + assert (Hflag : forall (var : bool) (label : string),
                label <> "" -> In (var, label) (extras_vars self) ->
                var = false).
      { intros [|] label Hne Hin; [ | reflexivity].
        exfalso. apply Hne, H. right. apply in_or_app. left.
        now apply set_flag_label. }
      unfold extras_vars in Hflag.
      repeat split;
        [ apply (Hflag _ "TightSCF") | apply (Hflag _ "D3BJ")
        | apply (Hflag _ "RIJCOSX") | apply (Hflag _ "Grid5")
        | apply (Hflag _ "CPCM") | apply (Hflag _ "VeryTightSCF")
        | apply (Hflag _ "SlowConv") | apply (Hflag _ "DefGrid3")
        | apply (Hflag _ "DefGridX") ];
        try discriminate; simpl; auto 20.
    + destruct (truth (strip (custom_keywords self))) eqn:Ht.
      * apply truth_true in Ht. exfalso. apply Ht, H.
        right. apply in_or_app. right. now left.
      * apply truth_false in Ht. now apply strip_empty_iff.
  - intros (Hjob & (H1 & H2 & H3 & H4 & H5 & H6 & H7 & H8 & H9) & Hck).
    apply job_keyword_empty_iff in Hjob.
    unfold extras_vars.
    rewrite Hjob, H1, H2, H3, H4, H5, H6, H7, H8, H9, (strip_blank _ Hck).
    cbn. intros p [<- | []]. reflexivity.
Qed.

(** X5: the keyword string is empty exactly when the job type is no key
    of the table, no check button is set and the custom keywords are
    blank; the header line is then the marker, the method, a space and
    the basis, with nothing after the basis. *)
Theorem build_keywords_empty_iff (self : App) :
  (build_keywords self = "" <->
   (forall v, ~ In (job_type self, v) JOB_KEYWORDS) /\
   (tightscf self = false /\ d3bj self = false /\ rij self = false /\
    grid5 self = false /\ cpcm self = false /\ verytightscf self = false /\
    slowconv self = false /\ defgrid3 self = false /\
    defgridx self = false) /\
   blank (custom_keywords self) = true) /\
  (build_keywords self = "" ->
   exists rest,
     build_input self
     = Ok ("! " ++ strip (method self) ++ " " ++ strip (basis self)
           ++ nl ++ nl ++ "%maxcore " ++ rest)).
Proof.
  assert (Hnil : build_keywords self = "" <-> keyword_tokens self = []).
  { pose proof (truth_build_keywords self) as Ht.
    destruct (keyword_tokens self) as [|t ts].
    - apply truth_false in Ht. tauto.
    - apply truth_true in Ht. split; [congruence | discriminate]. }
  split.
  - rewrite Hnil. apply keyword_tokens_nil_iff.
  - intros E. apply Hnil in E.
    destruct (coords_used_total self) as [coords Hc].
    rewrite (build_input_ok _ _ Hc).
    unfold document, preamble, header_line, resource_directive. rewrite E.
    repeat rewrite append_assoc. eexists. reflexivity.
Qed.

Lemma ends_nl_app (a b : string) :
  (exists body, b = body ++ nl) -> exists body, a ++ b = body ++ nl.
Proof.
  intros [body ->]. exists (a ++ body). now rewrite append_assoc.
Qed.

Lemma document_ends_nl (self : App) (b : bool) (coords : string) :
  exists body, document self b coords = "! " ++ body ++ nl.
Proof.
  assert (H : exists body,
    strip (method self) ++ " " ++ strip (basis self)
    ++ match keyword_tokens self with
       | [] => ""
       | toks => " " ++ join " " toks
       end
    ++ nl ++ nl ++ resource_directive self ++ nl
    ++ (if b then solvent_directive (solvent self) ++ nl else "")
    ++ custom_segment self ++ coordinate_segment self coords
    = body ++ nl).
  { do 7 apply ends_nl_app.
    unfold custom_segment, coordinate_segment, coordinate_directive.
    destruct (truth coords).
    - exists (nl ++ (if b then solvent_directive (solvent self) ++ nl else "")
              ++ (if truth (strip (cb_text self))
                  then strip (cb_text self) ++ nl ++ nl else "")
              ++ "* xyz " ++ charge self ++ " " ++ mult self ++ nl
              ++ coords ++ nl ++ "*").
      repeat rewrite append_assoc. reflexivity.
    - destruct (truth (strip (cb_text self))).
      + exists (nl ++ (if b then solvent_directive (solvent self) ++ nl else "")
                ++ strip (cb_text self) ++ nl).
        repeat rewrite append_assoc. reflexivity.
      + destruct b.
        * exists (nl ++ solvent_directive (solvent self)).
          repeat rewrite append_assoc. reflexivity.
        * now exists "". }
  destruct H as [body Hbody]. exists body. rewrite <- Hbody.
  unfold document, preamble, header_line.
  repeat rewrite append_assoc. reflexivity.
Qed.

(** X6: every document opens with the marker [! ], ends with a
    newline and is never blank. *)
Theorem build_input_shape (self : App) :
  exists doc body,
    build_input self = Ok doc /\
    doc = "! " ++ body ++ nl /\
    blank doc = false /\ strip doc <> "".
Proof.
  destruct (coords_used_total self) as [coords Hc].
  destruct (document_ends_nl self (contains "CPCM" (build_keywords self))
                             coords) as [body Hbody].
  exists (document self (contains "CPCM" (build_keywords self)) coords), body.
  split; [now apply build_input_ok | split; [exact Hbody | ]].
  assert (Hb : blank (document self (contains "CPCM" (build_keywords self))
                               coords) = false)
    by (rewrite Hbody; reflexivity).
  split; [exact Hb | ].
  intros E. apply strip_empty_iff in E. congruence.
Qed.

(** X7: whitespace around the method, the basis, the custom keywords,
    the custom text and the coordinate text never shows: two
    applications that agree on these five up to trimming, and on every
    other field, get the same document. *)
Theorem build_input_ignores_padding (self other : App) :
  strip (method other) = strip (method self) ->
  strip (basis other) = strip (basis self) ->
  strip (custom_keywords other) = strip (custom_keywords self) ->
  strip (cb_text other) = strip (cb_text self) ->
  strip (coords_text other) = strip (coords_text self) ->
  job_type other = job_type self -> charge other = charge self ->
  mult other = mult self -> solvent other = solvent self ->
  tightscf other = tightscf self -> d3bj other = d3bj self ->
  rij other = rij self -> grid5 other = grid5 self ->
  cpcm other = cpcm self -> verytightscf other = verytightscf self ->
  slowconv other = slowconv self -> defgrid3 other = defgrid3 self ->
  defgridx other = defgridx self -> maxcore other = maxcore self ->
  nprocs other = nprocs self ->
  auto_format_coords other = auto_format_coords self ->
  build_input other = build_input self.
Proof.
  destruct other, self. cbn [job_type method basis charge mult
    custom_keywords solvent tightscf d3bj rij grid5 cpcm verytightscf
    slowconv defgrid3 defgridx maxcore nprocs auto_format_coords
    coords_text cb_text].
  intros Hm Hb Hk Hcb Hco; intros; subst.
  unfold build_input, build_keywords, format_coords, extras_vars.
  cbn [job_type method basis charge mult
    custom_keywords solvent tightscf d3bj rij grid5 cpcm verytightscf
    slowconv defgrid3 defgridx maxcore nprocs auto_format_coords
    coords_text cb_text].
  now rewrite Hm, Hb, Hk, Hcb, Hco.
Qed.

Lemma format_coords_bare_text (text : string) :
  blank text = true \/
  (List.length (splitlines (strip text)) <= 1)%nat \/
  isdigit (strip (hd "" (splitlines (strip text)))) = false ->
  format_coords text = Ok (strip text).
Proof.
  intros H. destruct (blank text) eqn:Hb.
  - rewrite (format_coords_blank _ Hb). now rewrite (strip_blank _ Hb).
  - rewrite (format_coords_nonblank _ Hb). cbv zeta.
    destruct H as [H | [H | H]]; [discriminate | | ].
    + apply Nat.ltb_ge in H. now rewrite H.
    + now rewrite H, andb_false_r.
Qed.

(** X8: with a blank coordinate text the charge and the multiplicity
    are not written anywhere: setting them to anything leaves the
    document as it is. *)
Theorem build_input_charge_mult_unused (self : App) (c m : string) :
  blank (coords_text self) = true ->
  build_input (set_charge c (set_mult m self)) = build_input self.
Proof.
  intros Hb.
  rewrite (build_input_ok self "") by now apply coords_used_blank.
  rewrite (build_input_ok (set_charge c (set_mult m self)) "")
    by (apply coords_used_blank; exact Hb).
  destruct self; reflexivity.
Qed.

(** X9: when the keyword string does not hold "CPCM" the solvent
    selected is not written anywhere: setting it to anything leaves
    the document as it is. *)
Theorem build_input_solvent_unused (self : App) (sol : string) :
  contains "CPCM" (build_keywords self) = false ->
  build_input (set_solvent sol self) = build_input self.
Proof.
  intros Hk.
  destruct (coords_used_total self) as [coords Hc].
  rewrite (build_input_ok self coords Hc).
  rewrite (build_input_ok (set_solvent sol self) coords)
    by (destruct self; exact Hc).
  replace (build_keywords (set_solvent sol self)) with (build_keywords self)
    by (destruct self; reflexivity).
  rewrite Hk. destruct self; reflexivity.
Qed.

(** X10: the auto-format check button matters only for a text that,
    once trimmed, has two lines or more and a first line that trims to
    digits: for a blank text, a single line or another first line the
    document is the same with the button set or not. *)
Theorem build_input_auto_format_unused (self : App) (v : bool) :
  blank (coords_text self) = true \/
  (List.length (splitlines (strip (coords_text self))) <= 1)%nat \/
  isdigit (strip (hd "" (splitlines (strip (coords_text self))))) = false ->
  build_input (set_auto_format_coords v self) = build_input self.
Proof.
  intros Hbare.
  assert (Hc : forall a, coords_text a = coords_text self ->
                         coords_used a = Ok (strip (coords_text self))).
  { intros a Ha. unfold coords_used. rewrite Ha.
    destruct (auto_format_coords a); [ | reflexivity].
    now apply format_coords_bare_text. }
  rewrite (build_input_ok self _ (Hc self eq_refl)).
  rewrite (build_input_ok (set_auto_format_coords v self)
                          (strip (coords_text self)))
    by (apply Hc; destruct self; reflexivity).
  destruct self; reflexivity.
Qed.

(** X11: of the three tests of line 250 only the first decides: the
    check button CPCM and the job type "Solvation" each put "CPCM"
    into the keyword string, so the test is true exactly when the
    keyword string holds "CPCM". *)
Theorem solvent_tests_redundant (self : App) :
  (cpcm self = true -> contains "CPCM" (build_keywords self) = true) /\
  (job_type self = "Solvation" ->
   contains "CPCM" (build_keywords self) = true) /\
  contains "CPCM" (build_keywords self)
  || String.eqb (job_type self) "Solvation" || cpcm self
  = contains "CPCM" (build_keywords self).
Proof.
  split; [apply cpcm_flag_keyword | split; [apply solvation_job_keyword | ]].
  destruct (contains "CPCM" (build_keywords self)) eqn:Hk; [reflexivity | ].
  destruct (String.eqb_spec (job_type self) "Solvation") as [Hj | Hj].
  - apply solvation_job_keyword in Hj. congruence.
  - destruct (cpcm self) eqn:Hc; [ | reflexivity].
    apply cpcm_flag_keyword in Hc. congruence.
Qed.

End AssemblyMore.

(** * The callbacks of the window *)

Section Callbacks.

Lemma build_input_total (a : App) : exists doc, build_input a = Ok doc.
Proof.
  destruct (coords_used_total a) as [coords Hc].
  eexists. now apply build_input_ok with (coords := coords).
Qed.

Lemma build_input_not_blank (a : App) (doc : string) :
  build_input a = Ok doc -> truth (strip doc) = true.
Proof.
  intros Hdoc.
  destruct (coords_used_total a) as [coords Hc].
  rewrite (build_input_ok _ _ Hc) in Hdoc. apply Ok_inj in Hdoc. subst doc.
  destruct (document_ends_nl a (contains "CPCM" (build_keywords a)) coords)
    as [body ->].
  apply truth_true. intros E. apply strip_empty_iff in E. discriminate.
Qed.

Lemma document_set_coords_text (a : App) (t : string) (b : bool)
      (coords : string) :
  document (set_coords_text t a) b coords = document a b coords.
Proof. destruct a; reflexivity. Qed.

Lemma build_keywords_set_coords_text (a : App) (t : string) :
  build_keywords (set_coords_text t a) = build_keywords a.
Proof. destruct a; reflexivity. Qed.

Lemma strip_text_of (s : string) : strip (Tk.text_of s) = strip s.
Proof.
  unfold Tk.text_of.
  rewrite <- (strip_padding "" s nl eq_refl eq_refl). reflexivity.
Qed.

(** The coordinate text used once a text was put into the widget: the
    newline of the widget does not count. *)
Lemma coords_used_text_of (a : App) (t : string) :
  coords_used (set_coords_text (Tk.text_of t) a)
  = if auto_format_coords a then format_coords t else Ok (strip t).
Proof.
  unfold coords_used.
  replace (auto_format_coords (set_coords_text (Tk.text_of t) a))
    with (auto_format_coords a) by (destruct a; reflexivity).
  replace (coords_text (set_coords_text (Tk.text_of t) a))
    with (Tk.text_of t) by (destruct a; reflexivity).
  destruct (auto_format_coords a).
  - unfold Tk.text_of.
    exact (format_coords_padding "" t nl eq_refl eq_refl).
  - cbn [ret]. now rewrite strip_text_of.
Qed.

(** X12: while the preview is locked, [save_input] never asks the
    question about an empty preview and never reads the preview: with a
    path chosen it writes the document of [build_input] and says so,
    with the dialog cancelled it does nothing. *)
Theorem save_input_locked (yes : bool) (file_path : string) (self : Window) :
  preview_locked self = true ->
  exists doc,
    build_input (vars self) = Ok doc /\
    save_input yes file_path self
    = Ok (if truth file_path
          then [WriteFile file_path doc;
                ShowInfo "Saved" ("Input saved to: " ++ file_path)]
          else []).
Proof.
  intros Hl. destruct (build_input_total (vars self)) as [doc Hdoc].
  exists doc. split; [exact Hdoc | ].
  unfold save_input. rewrite Hl, Hdoc. cbn [negb bind ret].
  rewrite (build_input_not_blank _ _ Hdoc). reflexivity.
Qed.

(** X13: while the preview is unlocked, [save_input] writes a file
    exactly when a path is chosen and the preview is not blank or the
    question was answered with yes; what it writes is the text of the
    preview, not the document of [build_input]; and it asks the
    question exactly when the preview is blank. *)
Theorem save_input_unlocked (yes : bool) (file_path : string) (self : Window) :
  preview_locked self = false ->
  exists effects,
    save_input yes file_path self = Ok effects /\
    (forall path content,
       In (WriteFile path content) effects <->
       path = file_path /\ content = preview_text self /\ file_path <> "" /\
       (blank (preview_text self) = false \/ yes = true)) /\
    (In (AskYesNo "Empty Input" "Preview is empty. Save anyway?") effects
     <-> blank (preview_text self) = true).
Proof.
  intros Hl. unfold save_input. rewrite Hl. cbn [negb bind ret].
  destruct (truth (strip (preview_text self))) eqn:Ht.
  - assert (Hb : blank (preview_text self) = false).
    { apply truth_true in Ht.
      destruct (blank (preview_text self)) eqn:E; [ | reflexivity].
      apply strip_empty_iff in E. congruence. }
    cbn [negb andb app]. eexists. split; [reflexivity | ].
    rewrite Hb. split.
    + intros path content.
      destruct file_path as [|x file_path]; cbn [truth In].
      * split; [tauto | intros (_ & _ & H & _); congruence].
      * split.
        -- intros [E | [E | []]]; [ | discriminate].
           injection E as <- <-. repeat split; [discriminate | now left].
        -- intros (-> & -> & _ & _). now left.
    + destruct (truth file_path); cbn [In]; split;
        try discriminate; intros H; repeat destruct H as [H | H];
        try discriminate; contradiction.
  - assert (Hb : blank (preview_text self) = true).
    { apply truth_false in Ht. now apply strip_empty_iff. }
    rewrite Hb. cbn [negb andb].
    destruct yes; cbn [negb].
    + eexists. split; [reflexivity | ]. split.
      * intros path content.
        destruct file_path as [|x file_path]; cbn [truth In app].
        -- split; [intros [H | []]; discriminate
                  | intros (_ & _ & H & _); congruence].
        -- split.
           ++ intros [E | [E | [E | []]]]; try discriminate.
              injection E as <- <-. repeat split; [discriminate | now right].
           ++ intros (-> & -> & _ & _). right. now left.
      * split; [reflexivity | intros _; now left].
    + eexists. split; [reflexivity | ]. split.
      * intros path content. cbn [In]. split.
        -- intros [H | []]. discriminate.
        -- intros (_ & _ & _ & [H | H]); discriminate.
      * split; [reflexivity | intros _; now left].
Qed.


(** X15: [update_preview] always succeeds and puts the document of
    [build_input] into the preview, whatever the preview held; doing
    it again changes nothing. *)
Theorem update_preview_refresh (self : Window) :
  exists doc,
    build_input (vars self) = Ok doc /\
    update_preview self
    = Ok (mkWindow (vars self) (doc ++ nl) (preview_locked self)
                   (out_name self)) /\
    (forall shown : string,
       update_preview (mkWindow (vars self) shown (preview_locked self)
                                (out_name self))
       = update_preview self) /\
    (forall refreshed, update_preview self = Ok refreshed ->
                       update_preview refreshed = Ok refreshed).
Proof.
  destruct (build_input_total (vars self)) as [doc Hdoc].
  exists doc. split; [exact Hdoc | ].
  unfold update_preview. cbn [vars preview_locked out_name].
  rewrite Hdoc. cbn [bind ret].
  split; [reflexivity | split; [reflexivity | ]].
  intros refreshed E. apply Ok_inj in E. subst refreshed.
  cbn [vars preview_locked out_name]. now rewrite Hdoc.
Qed.

(** X16: the same document saved from a fresh preview gives two
    different files: with the preview locked the file is the document,
    with it unlocked the file is the document and one more newline,
    the one of the preview widget. *)
Theorem save_input_lock_newline (yes : bool) (file_path : string)
        (self : Window) :
  file_path <> "" ->
  exists doc refreshed,
    build_input (vars self) = Ok doc /\
    update_preview self = Ok refreshed /\
    save_input yes file_path
      (mkWindow (vars refreshed) (preview_text refreshed) true
                (out_name refreshed))
    = Ok [WriteFile file_path doc;
          ShowInfo "Saved" ("Input saved to: " ++ file_path)] /\
    save_input yes file_path
      (mkWindow (vars refreshed) (preview_text refreshed) false
                (out_name refreshed))
    = Ok [WriteFile file_path (doc ++ nl);
          ShowInfo "Saved" ("Input saved to: " ++ file_path)].
Proof.
  intros Hp. apply truth_true in Hp.
  destruct (build_input_total (vars self)) as [doc Hdoc].
  exists doc, (mkWindow (vars self) (doc ++ nl) (preview_locked self)
                        (out_name self)).
  split; [exact Hdoc | ].
  split; [unfold update_preview; now rewrite Hdoc | ].
  pose proof (build_input_not_blank _ _ Hdoc) as Hnb.
  assert (Hnb' : truth (strip (doc ++ nl)) = true)
    by (change (doc ++ nl) with (Tk.text_of doc);
        rewrite (strip_text_of doc); exact Hnb).
  unfold save_input.
  cbn [vars preview_text preview_locked out_name negb bind ret].
  rewrite Hdoc. cbn [bind]. rewrite Hnb, Hnb', Hp. split; reflexivity.
Qed.

(** X17: [load_coords] with a file chosen puts the text read into the
    coordinate widget.  With the preview locked the preview becomes the
    document for that text, the coordinates being computed from the
    text as read (the newline of the widget does not count); with the
    preview unlocked the preview stays.  With the dialog cancelled
    nothing changes. *)
Theorem load_coords_preview (file_path file_text : string) (self : Window) :
  (file_path = "" -> load_coords file_path file_text self = Ok self) /\
  (file_path <> "" ->
   exists coords after,
     (if auto_format_coords (vars self)
      then format_coords file_text else Ok (strip file_text)) = Ok coords /\
     load_coords file_path file_text self = Ok after /\
     vars after = set_coords_text (file_text ++ nl) (vars self) /\
     preview_locked after = preview_locked self /\
     out_name after = out_name self /\
     preview_text after
     = if preview_locked self
       then document (vars self)
                     (contains "CPCM" (build_keywords (vars self))) coords
            ++ nl
       else preview_text self).
Proof.
  split.
  - intros ->. reflexivity.
  - intros Hp. apply truth_true in Hp.
    unfold load_coords. rewrite Hp. cbn [negb].
    assert (Hc : exists coords,
      (if auto_format_coords (vars self)
       then format_coords file_text else Ok (strip file_text)) = Ok coords).
    { destruct (auto_format_coords (vars self));
        [apply format_coords_total | eauto]. }
    destruct Hc as [coords Hc]. exists coords.
    unfold update_preview_if_locked, update_preview.
    cbn [vars preview_text preview_locked out_name].
    destruct (preview_locked self).
    + rewrite (build_input_ok _ coords)
        by (rewrite coords_used_text_of; exact Hc).
      cbn [bind ret]. eexists. split; [exact Hc | ].
      split; [reflexivity | ].
      cbn [vars preview_text preview_locked out_name].
      rewrite document_set_coords_text, build_keywords_set_coords_text.
      repeat split.
    + eexists. split; [exact Hc | ]. repeat split.
Qed.

(** X18: [clear_coords] empties the coordinate widget; with the
    preview locked the preview becomes the document without coordinate
    directive, with the preview unlocked it stays. *)
Theorem clear_coords_preview (self : Window) :
  exists after,
    clear_coords self = Ok after /\
    vars after = set_coords_text nl (vars self) /\
    preview_locked after = preview_locked self /\
    out_name after = out_name self /\
    preview_text after
    = if preview_locked self
      then preamble (vars self)
           ++ (if contains "CPCM" (build_keywords (vars self))
               then solvent_directive (solvent (vars self)) ++ nl else "")
           ++ custom_segment (vars self) ++ nl
      else preview_text self.
Proof.
  unfold clear_coords, update_preview_if_locked, update_preview.
  cbn [vars preview_text preview_locked out_name].
  destruct (preview_locked self).
  - rewrite (build_input_ok _ "")
      by (apply coords_used_blank; destruct (vars self); reflexivity).
    cbn [bind ret]. eexists. split; [reflexivity | ].
    cbn [vars preview_text preview_locked out_name].
    rewrite document_set_coords_text, build_keywords_set_coords_text.
    repeat split.
    unfold Tk.text_of, document, coordinate_segment. cbn [truth].
    repeat rewrite append_assoc. reflexivity.
  - eexists. repeat split.
Qed.


End Callbacks.

(** * The further properties at concrete inputs *)

Lemma format_coords_padding_witness :
  format_coords (nl ++ water_xyz ++ nl) = format_coords water_xyz.
Proof.
  apply (format_coords_padding nl water_xyz nl); reflexivity.
Defined.

Lemma format_coords_normalises_terminators_witness :
  exists coords,
    format_coords crlf_xyz = Ok coords /\
    coords = strip (join nl (skipn 2 (splitlines (strip crlf_xyz)))) /\
    lf_only coords = true.
Proof.
  apply (format_coords_normalises_terminators crlf_xyz).
  - reflexivity.
  - simpl. lia.
  - reflexivity.
Defined.

Lemma build_keywords_empty_iff_witness :
  build_keywords empty_keywords_app = "".
Proof.
  apply (proj2 (proj1 (build_keywords_empty_iff empty_keywords_app))).
  split; [ | split; [repeat split | reflexivity]].
  intros v Hin. simpl in Hin.
  repeat (destruct Hin as [Hin | Hin]; [discriminate | ]).
  exact Hin.
Defined.

Lemma build_input_ignores_padding_witness :
  build_input padded_app = build_input trim_app.
Proof.
  apply (build_input_ignores_padding trim_app padded_app); reflexivity.
Defined.

Lemma build_input_charge_mult_unused_witness :
  build_input (set_charge "2" (set_mult "3" default_app))
  = build_input default_app.
Proof.
  apply (build_input_charge_mult_unused default_app "2" "3"). reflexivity.
Defined.

Lemma build_input_solvent_unused_witness :
  build_input (set_solvent "Toluene" default_app) = build_input default_app.
Proof.
  apply (build_input_solvent_unused default_app "Toluene"). reflexivity.
Defined.

Lemma build_input_auto_format_unused_witness :
  build_input (set_auto_format_coords false
                 (set_coords_text (join nl water_atoms) default_app))
  = build_input (set_coords_text (join nl water_atoms) default_app).
Proof.
  apply (build_input_auto_format_unused
           (set_coords_text (join nl water_atoms) default_app) false).
  right. right. reflexivity.
Defined.

Lemma solvent_tests_redundant_witness :
  contains "CPCM" (build_keywords cpcm_water_app) = true.
Proof.
  apply (proj1 (solvent_tests_redundant cpcm_water_app)). reflexivity.
Defined.

Lemma save_input_locked_witness :
  exists doc,
    build_input (vars fresh_window) = Ok doc /\
    save_input false "job.inp" fresh_window
    = Ok [WriteFile "job.inp" doc;
          ShowInfo "Saved" "Input saved to: job.inp"].
Proof.
  apply (save_input_locked false "job.inp" fresh_window). reflexivity.
Defined.

Lemma save_input_unlocked_witness :
  exists effects,
    save_input false "job.inp" edited_window = Ok effects /\
    In (WriteFile "job.inp" (preview_text edited_window)) effects.
Proof.
  destruct (save_input_unlocked false "job.inp" edited_window eq_refl)
    as (effects & Hsave & Hwrite & _).
  exists effects. split; [exact Hsave | ].
  apply Hwrite. repeat split; [discriminate | left; reflexivity].
Defined.


Lemma update_preview_refresh_witness :
  update_preview fresh_window = Ok fresh_window.
Proof.
  destruct (update_preview_refresh fresh_window) as (doc & _ & _ & _ & Hagain).
  apply Hagain. reflexivity.
Defined.

Lemma save_input_lock_newline_witness :
  exists doc refreshed,
    build_input (vars edited_window) = Ok doc /\
    update_preview edited_window = Ok refreshed /\
    save_input false "job.inp"
      (mkWindow (vars refreshed) (preview_text refreshed) true
                (out_name refreshed))
    = Ok [WriteFile "job.inp" doc;
          ShowInfo "Saved" "Input saved to: job.inp"] /\
    save_input false "job.inp"
      (mkWindow (vars refreshed) (preview_text refreshed) false
                (out_name refreshed))
    = Ok [WriteFile "job.inp" (doc ++ nl);
          ShowInfo "Saved" "Input saved to: job.inp"].
Proof.
  apply (save_input_lock_newline false "job.inp" edited_window). discriminate.
Defined.

Lemma load_coords_preview_witness :
  exists coords after,
    (if auto_format_coords (vars fresh_window)
     then format_coords (water_xyz ++ nl)
     else Ok (strip (water_xyz ++ nl))) = Ok coords /\
    load_coords "water.xyz" (water_xyz ++ nl) fresh_window = Ok after /\
    vars after
    = set_coords_text ((water_xyz ++ nl) ++ nl) (vars fresh_window) /\
    preview_locked after = preview_locked fresh_window /\
    out_name after = out_name fresh_window /\
    preview_text after
    = if preview_locked fresh_window
      then document (vars fresh_window)
                    (contains "CPCM" (build_keywords (vars fresh_window)))
                    coords
           ++ nl
      else preview_text fresh_window.
Proof.
  apply (proj2 (load_coords_preview "water.xyz" (water_xyz ++ nl)
                                    fresh_window)).
  discriminate.
Defined.

